(** * Verification of the XML ingestion template

    A shallow embedding of [xml_ingestion_template.py] (class [XMLIngestor]):
    the type coercion helper, the default record extractor, the streaming
    reader built on [ET.iterparse], the batcher, the schema validation step and
    the table assembler, followed by the properties the specification states
    about them.

    Conventions of the embedding.
    - A Python [str] is a [string]; a character is a code point below 256.
    - A Python [dict] with string keys is a [gmap string _].
    - A Python value of dynamic type is a [pyval].
    - A call that may raise returns a [result]; calls that also write to the
      module logger return a pair of the log records and the [result].
    - A generator is the finite list of what it yields together with the
      exception, if any, that ends it. *)

From Stdlib Require Import ZArith Ascii String List Lia.
From stdpp Require Import base option list strings gmap sorting.

(** ** Python strings *)

Module PyStr.

(** [str.isspace] on one character (code points below 256). *)
Definition isspace (c : ascii) : bool :=
  let n := nat_of_ascii c in
  ((9 <=? n) && (n <=? 13)) || ((28 <=? n) && (n <=? 32))
  || (n =? 133) || (n =? 160).

Fixpoint all_space (s : string) : bool :=
  match s with
  | EmptyString => true
  | String c s' => isspace c && all_space s'
  end.

Fixpoint lstrip (s : string) : string :=
  match s with
  | EmptyString => EmptyString
  | String c s' => if isspace c then lstrip s' else s
  end.

Fixpoint rstrip (s : string) : string :=
  match s with
  | EmptyString => EmptyString
  | String c s' =>
      match rstrip s' with
      | EmptyString => if isspace c then EmptyString else String c EmptyString
      | r => String c r
      end
  end.

(** [s.strip()] *)
Definition strip (s : string) : string := rstrip (lstrip s).

(** [c in s] for a one-character needle. *)
Fixpoint contains (c : ascii) (s : string) : bool :=
  match s with
  | EmptyString => false
  | String d s' => Ascii.eqb d c || contains c s'
  end.

(** [s.split(sep)] for a one-character separator: never empty, one more
    piece than there are separators. *)
Fixpoint split (sep : ascii) (s : string) : list string :=
  match s with
  | EmptyString => [EmptyString]
  | String c s' =>
      if Ascii.eqb c sep then EmptyString :: split sep s'
      else match split sep s' with
           | h :: t => String c h :: t
           | [] => [String c EmptyString]
           end
  end.

(** [str.lower] on one character: ASCII capitals and the Latin-1 capitals
    (all of 192..222 but the multiplication sign 215). *)
Definition lower_char (c : ascii) : ascii :=
  let n := nat_of_ascii c in
  if ((65 <=? n) && (n <=? 90))
     || ((192 <=? n) && (n <=? 222) && negb (n =? 215))
  then ascii_of_nat (n + 32) else c.

Fixpoint lower (s : string) : string :=
  match s with
  | EmptyString => EmptyString
  | String c s' => String (lower_char c) (lower s')
  end.

(** Number of occurrences of a character. *)
Fixpoint count (c : ascii) (s : string) : nat :=
  match s with
  | EmptyString => 0
  | String d s' => (if Ascii.eqb d c then 1 else 0) + count c s'
  end.

End PyStr.

(** ** Values, exceptions, results *)

(** An IEEE-754 binary64 value, kept as its 64-bit pattern. *)
Definition float64 := Z.

#[local] Unset Elimination Schemes.
Inductive pyval : Type :=
  | PyNone
  | PyBool (b : bool)
  | PyInt (z : Z)
  | PyFloat (f : float64)
  | PyStr (s : string)
  | PyList (l : list pyval).
#[local] Set Elimination Schemes.

(** The exception classes the module meets; all derive from [Exception].
    [ParseError] is [xml.etree.ElementTree.ParseError]; [StopIteration]
    stands for that class and the classes derived from it; [OtherException]
    is any class derived from none of the others. *)
Inductive exn : Type :=
  | ParseError (msg : string)
  | XMLIngestionError (msg : string)
  | ValueError (msg : string)
  | AttributeError (msg : string)
  | TypeError (msg : string)
  | ImportError (msg : string)
  | StopIteration (msg : string)
  | RuntimeError (msg : string)
  | OtherException (cls msg : string).

(** [str(e)] *)
Definition exn_str (e : exn) : string :=
  match e with
  | ParseError m | XMLIngestionError m | ValueError m | AttributeError m
  | TypeError m | ImportError m | StopIteration m | RuntimeError m
  | OtherException _ m => m
  end.

(** [isinstance(e, StopIteration)]; a class that is only named so counts
    too. *)
Definition is_stop_iteration (e : exn) : bool :=
  match e with
  | StopIteration _ => true
  | OtherException cls _ => bool_decide (cls = "StopIteration")
  | _ => false
  end.

(** An exception that leaves the body of a generator: a [StopIteration]
    raised inside it comes out as [RuntimeError] (PEP 479), every other
    exception as it is. *)
Definition leave_generator (e : exn) : exn :=
  if is_stop_iteration e
  then RuntimeError "generator raised StopIteration"
  else e.

Inductive result (A : Type) : Type :=
  | Return (a : A)
  | Raise (e : exn).
Arguments Return {A} a.
Arguments Raise {A} e.

(** One record per call site of the module logger. *)
Inductive log_record : Type :=
  | Warning_conversion_failed (e : exn) (default : pyval)
  | Error_validation_failed (error_log : string)
  | Warning_lxml_missing
  | Info_batch (n : nat)
  | Info_final_batch (n : nat)
  | Info_total (n : nat).

(** ** Configuration and elements *)

Record XMLIngestionConfig : Type := mkConfig {
  batch_size : Z;
  record_tag : string;
  namespaces : option (gmap string string);
  validate_schema : bool;
  schema_path : option string;
  encoding : string;
  strip_whitespace : bool
}.

Definition default_config : XMLIngestionConfig :=
  {| batch_size := 1000; record_tag := "record"; namespaces := None;
     validate_schema := false; schema_path := None; encoding := "utf-8";
     strip_whitespace := true |}.

(** [ET.Element], with the members the module reads. *)
#[local] Unset Elimination Schemes.
Inductive Element : Type :=
  mkElement {
    tag : string;
    attrib : gmap string string;
    text : option string;
    children : list Element
  }.
#[local] Set Elimination Schemes.

(** [Element.clear()]: the tag stays, everything else is reset. *)
Definition clear (e : Element) : Element :=
  {| tag := tag e; attrib := ∅; text := None; children := [] |}.

(** A row: field name to value. *)
Abbreviation Record_ := (gmap string pyval).

(** Python's [a or b] on an optional string: [None] and [''] are falsy. *)
Definition str_or (a : option string) (b : string) : string :=
  match a with
  | Some s => if decide (s = "") then b else s
  | None => b
  end.

(** The key under which a child is stored: [tag.split('}')[1]] when the tag
    holds a closing brace, the tag itself otherwise.  The index is always in
    range (lemma [split_second_in_range]), so the last branch is never taken. *)
Definition local_name (t : string) : string :=
  if PyStr.contains "}" t
  then match PyStr.split "}" t !! 1%nat with
       | Some piece => piece
       | None => t
       end
  else t.

Section Extractor.

Variable config : XMLIngestionConfig.

Definition _safe_get_text (element : Element) (default : string) : string :=
  if strip_whitespace config
  then PyStr.strip (str_or (text element) default)
  else str_or (text element) default.

(** Body of the loop over the children. *)
Definition add_child (result : Record_) (child : Element) : Record_ :=
  let tag := local_name (tag child) in
  let value := _safe_get_text child "" in
  match result !! tag with
  | Some old =>
      let items := match old with
                   | PyList l => l
                   | scalar => [scalar]
                   end in
      <[tag := PyList (items ++ [PyStr value])]> result
  | None => <[tag := PyStr value]> result
  end.

Definition _element_to_dict (element : Element) : Record_ :=
  fold_left add_child (children element) (PyStr <$> attrib element).

End Extractor.

(** ** The streaming reader *)

(** What [ET.iterparse(xml_source, events=('end',))] does on a source: it
    delivers the end events of [document] in document order of the closing tags
    (children before their parent).  With [fault = Some (k, e)] the parser
    fails with [e] once [k] events are out (or at the end of input when the
    document has fewer): a truncated or invalid byte stream, an unreadable
    file.  A well-formed, readable source has [fault = None]. *)
Record XMLSource : Type := mkSource {
  document : Element;
  fault : option (nat * exn)
}.

Definition well_formed (src : XMLSource) : Prop := fault src = None.

Definition event_allowed (limit : option nat) (delivered : nat) : bool :=
  match limit with
  | Some k => delivered <? k
  | None => true
  end.

Section Iterparse.

Context {St : Type}.
(** The consumer's loop body.  It runs between two events on the very
    object the tree holds, so it returns the element as it leaves it. *)
Variable body : Element -> St -> St * Element.
Variable limit : option nat.

Fixpoint iterparse (e : Element) (st : nat * St) : (nat * St) * Element :=
  let walk := fix walk (cs : list Element) (st : nat * St)
                : (nat * St) * list Element :=
    match cs with
    | [] => (st, [])
    | c :: cs' =>
        let '(st1, c') := iterparse c st in
        let '(st2, cs'') := walk cs' st1 in
        (st2, c' :: cs'')
    end in
  let '((n, s), cs') := walk (children e) st in
  let e' := {| tag := tag e; attrib := attrib e; text := text e;
               children := cs' |} in
  if event_allowed limit n
  then let '(s', e'') := body e' s in ((S n, s'), e'')
  else ((n, s), e').

End Iterparse.

(** A finished generator run: what it yielded, what it logged, how it ended. *)
Record generated (A : Type) : Type := mkGenerated {
  yielded : list A;
  logged : list log_record;
  raised : option exn
}.
Arguments mkGenerated {A}.
Arguments yielded {A}.
Arguments logged {A}.
Arguments raised {A}.

(** What [schema.validate] and the parsing before it come to. *)
Inductive lxml_verdict : Type :=
  | Valid
  | Invalid (error_log : string)
  | Fails (e : exn).

(** Calls that log and may raise. *)
Definition logging (A : Type) : Type := list log_record * result A.

Definition ret {A} (a : A) : logging A := ([], Return a).
Definition raise {A} (e : exn) : logging A := ([], Raise e).
Definition log (r : log_record) : logging unit := ([r], Return tt).
Definition bind {A B} (m : logging A) (k : A -> logging B) : logging B :=
  match m with
  | (l, Raise e) => (l, Raise e)
  | (l, Return a) => let '(l', r) := k a in (l ++ l', r)
  end.

Notation "x <- m ;; k" := (bind m (fun x => k))
  (at level 100, m at next level, right associativity).
Notation "m ;;; k" := (bind m (fun _ => k))
  (at level 100, right associativity).

Section Ingestor.

Variable config : XMLIngestionConfig.

(** [if elem.tag == record_tag: yield elem; elem.clear()] *)
Definition stream_body (elem : Element) (out : list Element)
  : list Element * Element :=
  if decide (tag elem = record_tag config)
  then (out ++ [elem], clear elem)
  else (out, elem).

(** The two handlers of [stream_records]. *)
Definition wrap_stream_error (e : exn) : exn :=
  match e with
  | ParseError m => XMLIngestionError ("XML parsing error: " +:+ m)
  | _ => XMLIngestionError
           ("Unexpected error during streaming: " +:+ exn_str e)
  end.

Definition stream_records (xml_source : XMLSource) : generated Element :=
  let '((_, out), _) :=
    iterparse stream_body (fst <$> fault xml_source)
              (document xml_source) (0%nat, []) in
  {| yielded := out;
     logged := [];
     raised := wrap_stream_error ∘ snd <$> fault xml_source |}.

(** ** The batcher *)

Abbreviation transform := (option (Element -> result Record_)).

Definition to_record (transform_func : transform) (elem : Element)
  : result Record_ :=
  match transform_func with
  | Some f => f elem
  | None => Return (_element_to_dict config elem)
  end.

(** The [for] loop of [ingest_batch] over the streamed elements, started
    with the buffer [batch]: the batches yielded, the records logged, and
    either the buffer left when the stream is exhausted or the exception of
    the transform. *)
Fixpoint batch_loop (transform_func : transform) (elems : list Element)
    (batch : list Record_)
  : list (list Record_) * list log_record * result (list Record_) :=
  match elems with
  | [] => ([], [], Return batch)
  | elem :: rest =>
      match to_record transform_func elem with
      | Raise e => ([], [], Raise e)
      | Return record =>
          let batch := batch ++ [record] in
          if (batch_size config <=? Z.of_nat (length batch))%Z
          then let '(out, logs, fin) := batch_loop transform_func rest [] in
               (batch :: out, Info_batch (length batch) :: logs, fin)
          else batch_loop transform_func rest batch
      end
  end.

Definition ingest_batch (xml_source : XMLSource) (transform_func : transform)
  : generated (list Record_) :=
  let stream := stream_records xml_source in
  match batch_loop transform_func (yielded stream) [] with
  | (out, logs, Raise e) => mkGenerated out logs (Some (leave_generator e))
  | (out, logs, Return batch) =>
      match raised stream with
      | Some e => mkGenerated out logs (Some (leave_generator e))
      | None =>
          match batch with
          | [] => mkGenerated out logs None
          | _ :: _ =>
              mkGenerated (out ++ [batch])
                          (logs ++ [Info_final_batch (length batch)]) None
          end
      end
  end.

(** ** Schema validation *)

(** The runtime: [lxml] is [None] where the package is not installed. *)
Variable lxml : option (string -> XMLSource -> lxml_verdict).

Definition validate_xml (xml_path : XMLSource) : logging bool :=
  match validate_schema config, schema_path config with
  | false, _ | _, None => ret true
  | true, Some path =>
      if decide (path = "") then ret true else
      match lxml with
      | None => log Warning_lxml_missing ;;; ret true
      | Some validate =>
          match validate path xml_path with
          | Valid => ret true
          | Invalid error_log =>
              log (Error_validation_failed error_log) ;;; ret false
          | Fails (ImportError _) => log Warning_lxml_missing ;;; ret true
          | Fails e =>
              raise (XMLIngestionError ("Validation error: " +:+ exn_str e))
          end
      end
  end.

(** ** The table assembler *)

(** A [pd.DataFrame] built from a list of rows. *)
Abbreviation Table := (list Record_).

(** Running a generator to its end inside a caller: its log, then its
    items or its exception. *)
Definition drain {A} (g : generated A) : logging (list A) :=
  (logged g, match raised g with Some e => Raise e | None => Return (yielded g) end).

Definition ingest_to_dataframe (xml_source : XMLSource)
    (transform_func : transform) : logging Table :=
  (if validate_schema config then
     valid <- validate_xml xml_source ;;
     if valid then ret tt else raise (XMLIngestionError "XML validation failed")
   else ret tt) ;;;
  batches <- drain (ingest_batch xml_source transform_func) ;;
  let all_records := concat batches in
  log (Info_total (length all_records)) ;;;
  ret all_records.

End Ingestor.

(** ** The type coercion helper *)

(** The [target_type] argument: one of the four builtin types the helper
    tests for, or any other callable. *)
Inductive target_kind : Type :=
  | KBool
  | KInt
  | KFloat
  | KStr
  | KOther (ctor : pyval -> result pyval).

(** [except (ValueError, AttributeError, TypeError)] *)
Definition caught (e : exn) : bool :=
  match e with
  | ValueError _ | AttributeError _ | TypeError _ => true
  | _ => false
  end.

Definition is_blank (value : pyval) : bool :=
  match value with
  | PyNone => true
  | PyStr s => bool_decide (PyStr.strip s = "")
  | _ => false
  end.

Section Coercion.

(** The builtins [int(value)] and [float(value)]. *)
Variable py_int : pyval -> result Z.
Variable py_float : pyval -> result float64.

(** The body of the [try]. *)
Definition convert (value : pyval) (target_type : target_kind)
  : result pyval :=
  match target_type with
  | KBool =>
      match value with
      | PyStr s =>
          Return (PyBool (bool_decide
                            (PyStr.lower s ∈ ["true"; "1"; "yes"; "on"])))
      | _ => Raise (AttributeError "object has no attribute 'lower'")
      end
  | KInt =>
      match py_int value with
      | Return z => Return (PyInt z)
      | Raise e => Raise e
      end
  | KFloat =>
      match py_float value with
      | Return f => Return (PyFloat f)
      | Raise e => Raise e
      end
  | KStr => Return value
  | KOther ctor => ctor value
  end.

Definition _convert_type (value : pyval) (target_type : target_kind)
    (default : pyval) : logging pyval :=
  if is_blank value then ret default
  else match convert value target_type with
       | Return v => ret v
       | Raise e =>
           if caught e
           then log (Warning_conversion_failed e default) ;;; ret default
           else raise e
       end.

End Coercion.

(** * Definitions used to state the properties *)

(** What one more child named [k] with text [x] does to the slot of [k],
    in the words of the specification: a new name is stored as the scalar
    text, a scalar is promoted to a two-element sequence, a sequence gets the
    text appended. *)
Definition absorb (slot : option pyval) (x : string) : option pyval :=
  match slot with
  | None => Some (PyStr x)
  | Some (PyList l) => Some (PyList (l ++ [PyStr x]))
  | Some scalar => Some (PyList [scalar; PyStr x])
  end.

(** The texts of the children stored under [k], in document order. *)
Fixpoint texts_named (config : XMLIngestionConfig) (k : string)
    (cs : list Element) : list string :=
  match cs with
  | [] => []
  | c :: cs' =>
      if decide (local_name (tag c) = k)
      then _safe_get_text config c "" :: texts_named config k cs'
      else texts_named config k cs'
  end.

(** The part of a tag after its first closing brace, and after its last. *)
Fixpoint after_first_brace (t : string) : option string :=
  match t with
  | EmptyString => None
  | String c t' => if Ascii.eqb c "}" then Some t' else after_first_brace t'
  end.

Fixpoint after_last_brace (t : string) : option string :=
  match t with
  | EmptyString => None
  | String c t' =>
      match after_last_brace t' with
      | Some r => Some r
      | None => if Ascii.eqb c "}" then Some t' else None
      end
  end.

(** A tag as the parser builds it, [local] or [{uri}local]: the parser
    accepts a closing brace neither in a name nor in a namespace URI, so
    the only one is the delimiter. *)
Definition parsed_tag (t : string) : Prop := PyStr.count "}" t <= 1.

(** The local name of a tag in the words of the specification: everything
    up to and including the namespace delimiter dropped, a tag without a
    namespace kept as it is. *)
Definition strip_namespace (t : string) : string :=
  from_option id t (after_first_brace t).

(** The texts of the children of a given local name, in document order. *)
Fixpoint texts_of_local_name (config : XMLIngestionConfig) (k : string)
    (cs : list Element) : list string :=
  match cs with
  | [] => []
  | c :: cs' =>
      if decide (strip_namespace (tag c) = k)
      then _safe_get_text config c "" :: texts_of_local_name config k cs'
      else texts_of_local_name config k cs'
  end.

(** The number of elements of a document that carry a given tag: the element
    itself and all its descendants. *)
Fixpoint count_tag (rt : string) (e : Element) : nat :=
  let sum := fix sum (cs : list Element) : nat :=
    match cs with
    | [] => 0
    | c :: cs' => count_tag rt c + sum cs'
    end in
  (if decide (tag e = rt) then 1 else 0) + sum (children e).

Definition count_tag_list (rt : string) (cs : list Element) : nat :=
  list_sum (map (count_tag rt) cs).

(** The traversal of the children inside [iterparse]. *)
Definition iterparse_children {St} (body : Element -> St -> St * Element)
    (limit : option nat) : list Element -> nat * St -> (nat * St) * list Element :=
  fix walk cs st :=
    match cs with
    | [] => (st, [])
    | c :: cs' =>
        let '(st1, c') := iterparse body limit c st in
        let '(st2, cs'') := walk cs' st1 in
        (st2, c' :: cs'')
    end.

(** The record the transform returns on an element (the empty record stands
    in where it raises). *)
Definition returned (config : XMLIngestionConfig)
    (transform_func : option (Element -> result (gmap string pyval)))
    (elem : Element) : gmap string pyval :=
  match to_record config transform_func elem with
  | Return r => r
  | Raise _ => ∅
  end.

(** A transform that raises on no element; the default extractor is one. *)
Definition never_raises
    (transform_func : option (Element -> result (gmap string pyval))) : Prop :=
  forall f, transform_func = Some f -> forall elem, exists r, f elem = Return r.

(** A transform given as a total function: it returns on every element. *)
Definition total (g : option (Element -> gmap string pyval))
  : option (Element -> result (gmap string pyval)) :=
  (fun f elem => Return (f elem)) <$> g.

(** * Sample inputs *)

Definition leaf (t x : string) : Element := mkElement t ∅ (Some x) [].

Definition sample_record (id : string) : Element :=
  mkElement "record" {[ "id" := id ]} None
            [leaf "name" " item "; leaf "tag" "a"; leaf "tag" "b"].

Definition five_records : XMLSource :=
  mkSource (mkElement "root" ∅ None
              [sample_record "1"; sample_record "2"; sample_record "3";
               sample_record "4"; sample_record "5"])
           None.

Definition no_records : XMLSource :=
  mkSource (mkElement "root" ∅ None [leaf "other" "x"]) None.

(** The same five records in a file cut off after the second one. *)
Definition truncated : XMLSource :=
  mkSource (document five_records)
           (Some (8%nat, ParseError "no element found: line 9, column 0")).

(** An element built by hand whose tag holds two closing braces; the parser
    builds no such tag. *)
Definition braced_child : Element := leaf "{http://a}b}item" "x".
Definition braced_record : Element := mkElement "record" ∅ None [braced_child].

Definition pairs : XMLIngestionConfig :=
  {| batch_size := 2; record_tag := "record"; namespaces := None;
     validate_schema := false; schema_path := None; encoding := "utf-8";
     strip_whitespace := true |}.

Definition strict : XMLIngestionConfig :=
  {| batch_size := 2; record_tag := "record"; namespaces := None;
     validate_schema := true; schema_path := Some "schema.xsd";
     encoding := "utf-8"; strip_whitespace := true |}.

Definition strict_without_schema : XMLIngestionConfig :=
  {| batch_size := 2; record_tag := "record"; namespaces := None;
     validate_schema := true; schema_path := None; encoding := "utf-8";
     strip_whitespace := true |}.

(** A validator that rejects every document. *)
Definition rejecting : option (string -> XMLSource -> lxml_verdict) :=
  Some (fun _ _ => Invalid "Element 'record': not expected.").

(** A transform that raises [StopIteration] on every record, as one that
    calls [next] on an exhausted iterator does. *)
Definition exhausted (elem : Element) : result (gmap string pyval) :=
  Raise (StopIteration "").

(** A transform that raises on the record whose id is 3. *)
Definition picky (elem : Element) : result (gmap string pyval) :=
  match attrib elem !! "id" with
  | Some id =>
      if decide (id = "3") then Raise (ValueError "bad record")
      else Return {[ "id" := PyStr id ]}
  | None => Return ∅
  end.

(** [int] on plain decimal literals, with an optional sign and surrounding
    whitespace. *)
Fixpoint digits_value (s : string) (acc : Z) : option Z :=
  match s with
  | EmptyString => Some acc
  | String c s' =>
      match Ascii.is_nat c with
      | Some d => digits_value s' (10 * acc + Z.of_nat d)
      | None => None
      end
  end.

Definition unsigned_literal (s : string) : option Z :=
  match s with
  | EmptyString => None
  | _ => digits_value s 0
  end.

Definition decimal_int (value : pyval) : result Z :=
  match value with
  | PyInt z => Return z
  | PyBool b => Return (if b then 1 else 0)%Z
  | PyStr s =>
      let parsed :=
        match PyStr.strip s with
        | String "-" t => Z.opp <$> unsigned_literal t
        | String "+" t => unsigned_literal t
        | t => unsigned_literal t
        end in
      match parsed with
      | Some z => Return z
      | None => Raise (ValueError "invalid literal for int() with base 10")
      end
  | _ => Raise (TypeError "int() argument must be a string or a real number")
  end.

(** The binary64 pattern of an integer below [2^53] in magnitude. *)
Definition binary64_of_Z (z : Z) : float64 :=
  if (z =? 0)%Z then 0%Z
  else
    let m := Z.abs z in
    let e := Z.log2 m in
    ((if (z <? 0)%Z then 2 ^ 63 else 0)
     + (e + 1023) * 2 ^ 52 + (m * 2 ^ (52 - e) - 2 ^ 52))%Z.

(** [float] on the decimal integer literals it represents exactly. *)
Definition integer_float (value : pyval) : result float64 :=
  match value with
  | PyStr s =>
      match decimal_int value with
      | Return z =>
          if (Z.abs z <? 2 ^ 53)%Z then Return (binary64_of_Z z)
          else Raise (ValueError "could not convert string to float")
      | Raise _ => Raise (ValueError "could not convert string to float")
      end
  | _ => Raise (TypeError "float() argument must be a string or a real number")
  end.

(** * The rest of the module and its callers *)

(** ** Sequential extraction *)

(** The transform applied to the streamed elements one after the other,
    up to the first exception. *)
Fixpoint collect (config : XMLIngestionConfig)
    (transform_func : option (Element -> result (gmap string pyval)))
    (elems : list Element) : result (list (gmap string pyval)) :=
  match elems with
  | [] => Return []
  | elem :: rest =>
      match to_record config transform_func elem with
      | Raise e => Raise e
      | Return record =>
          match collect config transform_func rest with
          | Return records => Return (record :: records)
          | Raise e => Raise e
          end
      end
  end.

(** The configuration with another batch size. *)
Definition with_batch_size (config : XMLIngestionConfig) (size : Z)
  : XMLIngestionConfig :=
  {| batch_size := size;
     record_tag := record_tag config;
     namespaces := namespaces config;
     validate_schema := validate_schema config;
     schema_path := schema_path config;
     encoding := encoding config;
     strip_whitespace := strip_whitespace config |}.

(** What the assembler obtains from the batcher: the first exception of the
    transform, else the failure of the reader, both as they leave the
    generator, else the records. *)
Definition assembled (config : XMLIngestionConfig)
    (src : XMLSource)
    (transform_func : option (Element -> result (gmap string pyval)))
  : result (list (gmap string pyval)) :=
  match collect config transform_func (yielded (stream_records config src)) with
  | Raise e => Raise (leave_generator e)
  | Return records =>
      match raised (stream_records config src) with
      | Some e => Raise (leave_generator e)
      | None => Return records
      end
  end.

(** An element with the record tag that has been cleared, and a tree in
    which every element with the record tag has been. *)
Definition spent (rt : string) (d : Element) : Prop :=
  tag d = rt -> attrib d = ∅ /\ text d = None /\ children d = [].

(** The value of a field, from the attribute of that name, if any, and the
    texts of the children stored under that name. *)
Definition field_of (a : option string) (xs : list string) : option pyval :=
  match a, xs with
  | None, [] => None
  | None, [x] => Some (PyStr x)
  | None, _ => Some (PyList (PyStr <$> xs))
  | Some v, [] => Some (PyStr v)
  | Some v, _ => Some (PyList (PyStr <$> v :: xs))
  end.

(** A string that holds a whitespace character. *)
Fixpoint any_space (s : string) : bool :=
  match s with
  | EmptyString => false
  | String c s' => PyStr.isspace c || any_space s'
  end.

(** The last character of a string. *)
Fixpoint last_char (s : string) : option ascii :=
  match s with
  | EmptyString => None
  | String c EmptyString => Some c
  | String _ s' => last_char s'
  end.

(** ** [NamespacedXMLIngestor] *)

(** The override of [_element_to_dict]: the result of the base class, then a
    loop over the configured namespaces whose body is [pass]. *)
Definition Namespaced_element_to_dict (config : XMLIngestionConfig)
    (element : Element) : gmap string pyval :=
  let result := _element_to_dict config element in
  match namespaces config with
  | Some ns =>
      if decide (ns = ∅) then result
      else map_fold (fun (prefix uri : string) (r : gmap string pyval) => r)
                    result ns
  | None => result
  end.

(** ** [quick_xml_to_df] *)

(** [XMLIngestionConfig(record_tag=record_tag)] *)
Definition config_for (tag : string) : XMLIngestionConfig :=
  {| batch_size := 1000; record_tag := tag; namespaces := None;
     validate_schema := false; schema_path := None; encoding := "utf-8";
     strip_whitespace := true |}.

Definition quick_xml_to_df
    (lxml : option (string -> XMLSource -> lxml_verdict))
    (xml_file : XMLSource) (record_tag : string)
  : logging (list (gmap string pyval)) :=
  ingest_to_dataframe (config_for record_tag) lxml xml_file None.

(** ** [xml_file_info] *)

(** [ET.parse(source).getroot()]: the whole document or the parser's
    exception, wherever in the input the failure lies. *)
Definition parse (source : XMLSource) : result Element :=
  match fault source with
  | Some (_, e) => Raise e
  | None => Return (document source)
  end.

(** [root.iter()]: the element, then its descendants, in document order. *)
Fixpoint iter (e : Element) : list Element :=
  let below := fix below (cs : list Element) : list Element :=
    match cs with
    | [] => []
    | c :: cs' => iter c ++ below cs'
    end in
  e :: below (children e).

(** All the elements of a list of siblings with their descendants. *)
Definition iter_all (cs : list Element) : list Element :=
  concat (map iter cs).

(** The dictionary [xml_file_info] returns when nothing fails. *)
Record FileInfo : Type := mkFileInfo {
  root_tag : string;
  total_elements : nat;
  unique_tags : nat;
  tags : list string;
  root_attributes : gmap string string;
  file_size_mb : float64
}.

Section FileInfo.

(** [Path(xml_file).stat().st_size] and the division of two integers. *)
Variable st_size : XMLSource -> result Z.
Variable true_divide : Z -> Z -> float64.

(** Either the summary or the dictionary [{'error': str(e)}]. *)
Definition xml_file_info (xml_file : XMLSource) : FileInfo + string :=
  match parse xml_file with
  | Raise e => inr (exn_str e)
  | Return root =>
      let all_elements := iter root in
      let tag_set : gset string := list_to_set (tag <$> all_elements) in
      match st_size xml_file with
      | Raise e => inr (exn_str e)
      | Return bytes =>
          inl {| root_tag := tag root;
                 total_elements := length all_elements;
                 unique_tags := size tag_set;
                 tags := merge_sort String.le (elements tag_set);
                 root_attributes := attrib root;
                 file_size_mb := true_divide bytes (1024 * 1024) |}
      end
  end.

End FileInfo.

(** ** The employee example *)

(** [element.get(key, default)] *)
Definition get (element : Element) (key default : string) : string :=
  from_option id default (attrib element !! key).

(** [element.findtext(path, default)] for a path that is a plain tag name,
    as in every call of the example: the text of the first child of that
    tag, [''] where that child has no text, the default where there is no
    such child. *)
Definition findtext (element : Element) (path default : string) : string :=
  match list_find (fun c => tag c = path) (children element) with
  | Some (_, child) => from_option id "" (text child)
  | None => default
  end.

(** [s.replace(' ', '')] *)
Fixpoint remove_spaces (s : string) : string :=
  match s with
  | EmptyString => EmptyString
  | String c s' =>
      if Ascii.eqb c " " then remove_spaces s' else String c (remove_spaces s')
  end.

(** [not s or s.strip() == ''] for a string. *)
Definition blank (s : string) : bool :=
  bool_decide (s = "") || bool_decide (PyStr.strip s = "").

(** Sequencing of calls that may raise. *)
Definition and_then {A B} (m : result A) (k : A -> result B) : result B :=
  match m with
  | Return a => k a
  | Raise e => Raise e
  end.

Notation "'let*' x := m 'in' k" := (and_then m (fun x => k))
  (at level 10, x name, m at level 100, k at level 200).

Section Employee.

(** [datetime.strptime(date_string, format)], its value dropped, and the
    builtins [int] and [float]. *)
Variable strptime : string -> string -> result unit.
Variable py_int : pyval -> result Z.
Variable py_float : pyval -> result float64.

Definition parse_date (date_str : string) : result (option string) :=
  if blank date_str then Return None
  else match strptime date_str "%Y-%m-%d" with
       | Return _ => Return (Some date_str)
       | Raise (ValueError _) => Return None
       | Raise e => Raise e
       end.

Definition parse_decimal (value_str : string) (default : float64)
  : result float64 :=
  if blank value_str then Return default
  else
    let cleaned := remove_spaces (PyStr.strip value_str) in
    match py_float (PyStr cleaned) with
    | Return x => Return x
    | Raise (ValueError _) => Return default
    | Raise e => Raise e
    end.

(** [None] or a string, as a value of a row. *)
Definition optional_str (o : option string) : pyval :=
  from_option PyStr PyNone o.

(** [text.lower() == 'true'] *)
Definition is_true (s : string) : pyval :=
  PyBool (bool_decide (PyStr.lower s = "true")).

(** The dictionary display of [transform_employee_basic]; its values are
    evaluated from top to bottom, and only the calls that may raise are
    sequenced here. *)
Definition transform_employee_basic (element : Element)
  : result (gmap string pyval) :=
  let* entry_date := parse_date (findtext element "entryDate" "") in
  let* leave_date := parse_date (findtext element "leaveDate" "") in
  let* superior_level :=
    py_int (PyStr (findtext element "superiorLevel" "0")) in
  let* wage_step := py_int (PyStr (findtext element "wageStep" "0")) in
  let* calculated_step :=
    py_int (PyStr (findtext element "calculatedStep" "0")) in
  let* numerator := parse_decimal (findtext element "numerator" "0") 0%Z in
  let* denominator := parse_decimal (findtext element "denominator" "0") 0%Z in
  Return (list_to_map
    [ ("employee_id", PyStr (get element "id" ""));
      ("client_id", PyStr (get element "client" ""));
      ("last_changed", PyStr (get element "lastChanged" ""));
      ("first_name", PyStr (findtext element "firstName" ""));
      ("last_name", PyStr (findtext element "lastName" ""));
      ("address", PyStr (findtext element "address" ""));
      ("postal_code", PyStr (findtext element "postalCode" ""));
      ("city", PyStr (findtext element "city" ""));
      ("country", PyStr (findtext element "country" ""));
      ("entry_date", optional_str entry_date);
      ("leave_date", optional_str leave_date);
      ("position", PyStr (findtext element "position" ""));
      ("position_short", PyStr (findtext element "positionShort" ""));
      ("position_id", PyStr (findtext element "positionId" ""));
      ("is_manager", is_true (findtext element "isManager" "false"));
      ("invoice_recipient",
       is_true (findtext element "invoiceRecipient" "false"));
      ("superior_level", PyInt superior_level);
      ("wage_step", PyInt wage_step);
      ("calculated_step", PyInt calculated_step);
      ("numerator", PyFloat numerator);
      ("denominator", PyFloat denominator) ]).

End Employee.

(** The keys of a row of [transform_employee_basic]. *)
Definition employee_columns : gset string :=
  list_to_set
    [ "employee_id"; "client_id"; "last_changed"; "first_name"; "last_name";
      "address"; "postal_code"; "city"; "country"; "entry_date"; "leave_date";
      "position"; "position_short"; "position_id"; "is_manager";
      "invoice_recipient"; "superior_level"; "wage_step"; "calculated_step";
      "numerator"; "denominator" ].

(** A sample runtime for [xml_file_info]: every file weighs three
    mebibytes, and the division is the exact one where there is one. *)
Definition three_mebibytes (xml_file : XMLSource) : result Z :=
  Return (3 * 1024 * 1024)%Z.

Definition exact_divide (a b : Z) : float64 := binary64_of_Z (a / b).

(** A stand-in for [strptime] with the format [%Y-%m-%d]: it accepts the
    texts of the shape [dddd-dd-dd] and rejects the others. *)
Definition is_digit (c : ascii) : bool :=
  match Ascii.is_nat c with Some _ => true | None => false end.

Definition sample_strptime (date_string format : string) : result unit :=
  match list_ascii_of_string date_string with
  | [y1; y2; y3; y4; dash1; m1; m2; dash2; d1; d2] =>
      if forallb is_digit [y1; y2; y3; y4; m1; m2; d1; d2]
         && Ascii.eqb dash1 "-" && Ascii.eqb dash2 "-"
      then Return tt
      else Raise (ValueError "time data does not match format")
  | _ => Raise (ValueError "time data does not match format")
  end.

(** Two employees: one complete, one whose [superiorLevel] is empty. *)
Definition employee (id : string) (superior_level : option string) : Element :=
  mkElement "employee" {[ "id" := id; "client" := "100" ]} None
    [ leaf "firstName" "Anna"; leaf "lastName" "Berg";
      leaf "entryDate" "2020-01-01"; mkElement "leaveDate" ∅ None [];
      leaf "isManager" "True";
      mkElement "superiorLevel" ∅ superior_level [];
      leaf "wageStep" "3"; leaf "numerator" "37 "; leaf "denominator" "37" ].

Definition staff : XMLSource :=
  mkSource (mkElement "employees" ∅ None
              [employee "1" (Some "2"); employee "2" None;
               employee "3" (Some "1")])
           None.

Definition employees_config : XMLIngestionConfig := config_for "employee".

Definition good_staff : XMLSource :=
  mkSource (mkElement "employees" ∅ None
              [employee "1" (Some "2"); employee "3" (Some "1")])
           None.

(** A record with a namespaced attribute and a namespaced child. *)
Definition namespaced_record : Element :=
  mkElement "{http://a}record" {[ "{http://a}id" := "7" ]} None
            [leaf "{http://a}name" "x"].

(** The five records, with a batch size of zero. *)
Definition unbatched : XMLIngestionConfig := with_batch_size pairs 0.

(** * Properties *)

(** ** Strings *)

Lemma lstrip_all_space s : PyStr.all_space s = true -> PyStr.lstrip s = "".
Proof.
  induction s as [|c s IH]; simpl; [done|].
  intros [Hc Hs]%andb_true_iff. rewrite Hc. auto.
Qed.

Lemma rstrip_empty s : PyStr.rstrip s = "" -> PyStr.all_space s = true.
Proof.
  induction s as [|c s IH]; simpl; [done|].
  destruct (PyStr.rstrip s) eqn:E; [|done].
  destruct (PyStr.isspace c); [auto|done].
Qed.

Lemma lstrip_keeps_non_space s :
  PyStr.all_space s = false -> PyStr.all_space (PyStr.lstrip s) = false.
Proof.
  induction s as [|c s IH]; simpl; [done|].
  destruct (PyStr.isspace c) eqn:Hc; simpl; [auto|].
  by rewrite Hc.
Qed.

(** [s.strip() == ''] holds exactly for the empty and the all-whitespace
    strings. *)
Lemma strip_empty_iff s : PyStr.strip s = "" <-> PyStr.all_space s = true.
Proof.
  unfold PyStr.strip. split.
  - intros H%rstrip_empty. destruct (PyStr.all_space s) eqn:E; [done|].
    apply lstrip_keeps_non_space in E. congruence.
  - intros H. by rewrite lstrip_all_space.
Qed.

Lemma split_length c s : length (PyStr.split c s) = S (PyStr.count c s).
Proof.
  induction s as [|d s IH]; simpl; [done|].
  destruct (Ascii.eqb d c); simpl; [by rewrite IH|].
  destruct (PyStr.split c s); simpl in *; lia.
Qed.

Lemma contains_count c s : PyStr.contains c s = true <-> 0 < PyStr.count c s.
Proof.
  induction s as [|d s IH]; simpl; [split; [done|lia]|].
  destruct (Ascii.eqb d c); simpl; [split; [lia|done]|done].
Qed.

(** The index of [tag.split('}')[1]] is in range: no [IndexError]. *)
Lemma split_second_in_range t :
  PyStr.contains "}" t = true -> is_Some (PyStr.split "}" t !! 1%nat).
Proof.
  intros H%contains_count. apply lookup_lt_is_Some.
  rewrite split_length. lia.
Qed.

Lemma local_name_plain t : PyStr.contains "}" t = false -> local_name t = t.
Proof. unfold local_name. by intros ->. Qed.

(** ** The record extractor *)

Lemma add_child_lookup_same config result child :
  add_child config result child !! local_name (tag child)
  = absorb (result !! local_name (tag child)) (_safe_get_text config child "").
Proof.
  unfold add_child.
  destruct (result !! local_name (tag child)) as [[]|] eqn:E;
    by rewrite lookup_insert_eq.
Qed.

Lemma add_child_lookup_other config result child k :
  local_name (tag child) ≠ k ->
  add_child config result child !! k = result !! k.
Proof.
  intros Hne. unfold add_child.
  destruct (result !! local_name (tag child)); by rewrite lookup_insert_ne.
Qed.

Lemma fold_add_child_lookup config cs : forall (result : gmap string pyval) k,
  fold_left (add_child config) cs result !! k
  = fold_left absorb (texts_named config k cs) (result !! k).
Proof.
  induction cs as [|c cs IH]; intros result k; simpl; [done|].
  rewrite IH. destruct (decide (local_name (tag c) = k)) as [<-|Hne]; simpl.
  - by rewrite add_child_lookup_same.
  - by rewrite add_child_lookup_other.
Qed.

(** Every field of the record produced by the default extractor: the
    attribute of that name, if any, followed by the texts of the children
    stored under that name, absorbed one by one in document order. *)
Lemma element_to_dict_lookup config e k :
  _element_to_dict config e !! k
  = fold_left absorb (texts_named config k (children e))
              (PyStr <$> attrib e !! k).
Proof.
  unfold _element_to_dict. by rewrite fold_add_child_lookup, lookup_fmap.
Qed.

(** Every attribute is a field. *)
Lemma element_to_dict_attribute config e k v :
  attrib e !! k = Some v -> is_Some (_element_to_dict config e !! k).
Proof.
  intros Hv. rewrite element_to_dict_lookup, Hv. simpl.
  generalize (PyStr v).
  induction (texts_named config k (children e)) as [|x xs IH]; intros p;
    simpl; [eauto|].
  destruct p; apply IH.
Qed.

(** A name that is no attribute and is carried by exactly two children holds
    the two texts as a sequence, in document order. *)
Lemma element_to_dict_twice config e k a b :
  attrib e !! k = None ->
  texts_named config k (children e) = [a; b] ->
  _element_to_dict config e !! k = Some (PyList [PyStr a; PyStr b]).
Proof. intros Ha Ht. by rewrite element_to_dict_lookup, Ha, Ht. Qed.

(** A tag with no brace is kept; with exactly one brace, what follows the
    brace is kept, which is the local name of [{uri}local]. *)
Lemma split_no_brace t :
  PyStr.contains "}" t = false -> PyStr.split "}" t = [t].
Proof.
  induction t as [|c t IH]; simpl; [done|].
  destruct (Ascii.eqb c "}"); simpl; [done|].
  intros H. by rewrite IH.
Qed.

Lemma after_first_brace_none t :
  PyStr.contains "}" t = false -> after_first_brace t = None.
Proof.
  induction t as [|c t IH]; simpl; [done|].
  destruct (Ascii.eqb c "}"); simpl; [done|auto].
Qed.

Lemma after_last_brace_none t :
  PyStr.contains "}" t = false -> after_last_brace t = None.
Proof.
  induction t as [|c t IH]; simpl; [done|].
  destruct (Ascii.eqb c "}"); simpl; [done|].
  intros H. by rewrite IH.
Qed.

Lemma local_name_single_brace t :
  PyStr.count "}" t = 1%nat ->
  after_first_brace t = Some (local_name t)
  /\ after_last_brace t = Some (local_name t).
Proof.
  intros Hc. unfold local_name.
  assert (PyStr.contains "}" t = true) as -> by (apply contains_count; lia).
  induction t as [|c t IH]; simpl in *; [done|].
  destruct (Ascii.eqb c "}") eqn:E; simpl in *.
  - assert (PyStr.contains "}" t = false) as Hn.
    { destruct (PyStr.contains "}" t) eqn:C; [|done].
      apply contains_count in C. lia. }
    rewrite split_no_brace by done. simpl.
    by rewrite after_last_brace_none.
  - destruct (IH Hc) as [H1 H2]. rewrite H1, H2.
    pose proof (split_length "}" t) as Hl. rewrite Hc in Hl.
    destruct (PyStr.split "}" t) as [|h [|h' tl]]; simpl in *; done.
Qed.

(** ** The streaming reader *)

(** Induction on an element with the property known of all its children. *)
Lemma Element_ind (P : Element -> Prop) :
  (forall t a x cs, Forall P cs -> P (mkElement t a x cs)) ->
  forall e, P e.
Proof.
  intros step. fix IH 1. intros [t a x cs]. apply step.
  induction cs as [|c cs IHcs]; constructor; [apply IH|exact IHcs].
Qed.

Lemma count_tag_unfold rt e :
  count_tag rt e
  = (if decide (tag e = rt) then 1 else 0) + count_tag_list rt (children e).
Proof.
  destruct e as [t a x cs]. unfold count_tag_list. simpl. f_equal.
  induction cs as [|c cs IH]; simpl; [done|]. by rewrite IH.
Qed.

Lemma iterparse_unfold {St} (body : Element -> St -> St * Element) limit e st :
  iterparse body limit e st
  = let '((n, s), cs') := iterparse_children body limit (children e) st in
    let e' := {| tag := tag e; attrib := attrib e; text := text e;
                 children := cs' |} in
    if event_allowed limit n
    then let '(s', e'') := body e' s in ((S n, s'), e'')
    else ((n, s), e').
Proof. by destruct e. Qed.

(** On a well-formed source the reader yields one element per element of
    the document that carries the record tag. *)
Lemma iterparse_stream_count config e : forall n out,
  exists n' ys e',
    iterparse (stream_body config) None e (n, out) = ((n', out ++ ys), e')
    /\ length ys = count_tag (record_tag config) e.
Proof.
  induction e as [t a x cs IH] using Element_ind. intros n out.
  rewrite iterparse_unfold, count_tag_unfold. simpl.
  assert (exists n' ys cs',
    iterparse_children (stream_body config) None cs (n, out)
      = ((n', out ++ ys), cs')
    /\ length ys = count_tag_list (record_tag config) cs)
    as (n' & ys & cs' & -> & Hlen).
  { clear t a x. revert n out.
    induction IH as [|c cs Hc _ IHcs]; intros n out; simpl.
    - exists n, [], []. by rewrite app_nil_r.
    - destruct (Hc n out) as (n1 & ys1 & c' & -> & Hl1).
      destruct (IHcs n1 (out ++ ys1)) as (n2 & ys2 & cs' & -> & Hl2).
      exists n2, (ys1 ++ ys2), (c' :: cs').
      rewrite app_assoc, length_app. unfold count_tag_list in *. simpl.
      split; [done|lia]. }
  unfold stream_body. simpl. destruct (decide (t = record_tag config)).
  - eexists _, (ys ++ [_]), _. rewrite app_assoc. split; [done|].
    rewrite length_app. simpl. lia.
  - eexists _, ys, _. split; [done|]. lia.
Qed.

Lemma stream_records_count config src :
  well_formed src ->
  length (yielded (stream_records config src))
  = count_tag (record_tag config) (document src)
  /\ raised (stream_records config src) = None.
Proof.
  unfold well_formed, stream_records. intros ->. simpl.
  destruct (iterparse_stream_count config (document src) 0%nat [])
    as (n' & ys & e' & -> & Hlen).
  done.
Qed.

(** ** The batcher *)

Section BatchLoop.

Variable config : XMLIngestionConfig.
Variable transform_func : option (Element -> result (gmap string pyval)).

Local Abbreviation loop := (batch_loop config transform_func).
Local Abbreviation extract := (to_record config transform_func).

(** When the transform returns on every element, the loop runs to the end
    of the stream, and the batches it yields followed by the buffer it leaves
    are the records in order. *)
Lemma batch_loop_concat g elems :
  Forall (fun elem => extract elem = Return (g elem)) elems ->
  forall batch, exists out logs rest,
    loop elems batch = (out, logs, Return rest)
    /\ concat out ++ rest = batch ++ map g elems.
Proof.
  induction 1 as [|elem elems Helem _ IH]; intros batch; simpl.
  - exists [], [], batch. by rewrite app_nil_r.
  - rewrite Helem.
    destruct (batch_size config <=? Z.of_nat (length (batch ++ [g elem])))%Z.
    + destruct (IH []) as (out & logs & rest & -> & Heq).
      eexists _, _, _. split; [done|]. simpl.
      rewrite <- !app_assoc, Heq. done.
    + destruct (IH (batch ++ [g elem])) as (out & logs & rest & -> & Heq).
      eexists _, _, _. split; [done|]. by rewrite Heq, <- app_assoc.
Qed.

(** Whatever the stream and the transform, a buffer shorter than the batch
    size stays shorter, and every batch yielded inside the loop is full. *)
Lemma batch_loop_full elems : forall batch out logs fin,
  (Z.of_nat (length batch) < batch_size config)%Z ->
  loop elems batch = (out, logs, fin) ->
  Forall (fun b => Z.of_nat (length b) = batch_size config) out
  /\ (forall rest, fin = Return rest ->
        (Z.of_nat (length rest) < batch_size config)%Z)
  /\ logs = map (fun b => Info_batch (length b)) out.
Proof.
  induction elems as [|elem elems IH]; intros batch out logs fin Hlt; simpl.
  - intros [= <- <- <-]. split; [constructor|]. split; [|done].
    by intros rest [= <-].
  - destruct (extract elem) as [record|e].
    2:{ intros [= <- <- <-]. split; [constructor|]. split; done. }
    destruct (Z.leb_spec (batch_size config)
                (Z.of_nat (length (batch ++ [record])))) as [Hge|Hlt'].
    + destruct (loop elems []) as [[out' logs'] fin'] eqn:E.
      intros [= <- <- <-].
      destruct (IH [] out' logs' fin') as (Hfull & Hrest & Hlogs);
        [simpl; lia|done|].
      split; [|split; [done|by rewrite Hlogs]].
      constructor; [|done]. rewrite length_app in *. simpl in *. lia.
    + intros E. by apply (IH _ _ _ _ Hlt' E).
Qed.

(** The first element on which the transform raises ends the loop with
    that very exception; the records buffered so far are not yielded. *)
Lemma batch_loop_raise pre elem post e :
  Forall (fun x => exists r, extract x = Return r) pre ->
  extract elem = Raise e ->
  forall batch, exists out logs,
    loop (pre ++ elem :: post) batch = (out, logs, Raise e)
    /\ length (concat out) <= length batch + length pre.
Proof.
  intros Hpre Hraise. induction Hpre as [|x pre [r Hx] _ IH]; intros batch; simpl.
  - rewrite Hraise. exists [], []. split; [done|]. simpl. lia.
  - rewrite Hx.
    destruct (batch_size config <=? Z.of_nat (length (batch ++ [r])))%Z.
    + destruct (IH []) as (out & logs & -> & Hlen).
      eexists _, _. split; [done|]. simpl in *.
      rewrite !length_app in *. simpl. lia.
    + destruct (IH (batch ++ [r])) as (out & logs & -> & Hlen).
      eexists _, _. split; [done|]. rewrite length_app in Hlen. simpl in *. lia.
Qed.

End BatchLoop.

Lemma never_raises_returned config transform_func elems :
  never_raises transform_func ->
  Forall (fun elem => to_record config transform_func elem
                      = Return (returned config transform_func elem)) elems.
Proof.
  intros Hnr. apply Forall_forall. intros elem _. unfold returned.
  destruct transform_func as [f|]; simpl; [|done].
  by destruct (Hnr f eq_refl elem) as [r ->].
Qed.

Lemma length_concat_full {A} (b : nat) (out : list (list A)) :
  Forall (fun x => length x = b) out ->
  length (concat out) = (length out * b)%nat.
Proof. induction 1 as [|x out Hx _ IH]; simpl; [done|]. rewrite length_app. lia. Qed.

Lemma map_length_full {A} (b : nat) (out : list (list A)) :
  Forall (fun x => length x = b) out ->
  map length out = replicate (length out) b.
Proof. induction 1 as [|x out Hx _ IH]; simpl; [done|]. by rewrite Hx, IH. Qed.

(** The whole run of [ingest_batch] on a well-formed source with a transform
    that does not raise: full batches, then the rest if there is any. *)
Lemma ingest_batch_run config src transform_func :
  (1 <= batch_size config)%Z ->
  well_formed src ->
  never_raises transform_func ->
  let b := Z.to_nat (batch_size config) in
  let run := ingest_batch config src transform_func in
  exists out rest,
    yielded run = out ++ match rest with [] => [] | _ => [rest] end
    /\ raised run = None
    /\ Forall (fun x => length x = b) out
    /\ length rest < b
    /\ concat out ++ rest
       = map (returned config transform_func)
             (yielded (stream_records config src)).
Proof.
  intros HB Hwf Hnr b run. subst run. unfold ingest_batch.
  destruct (stream_records_count config src Hwf) as [_ Hnone].
  destruct (batch_loop_concat config transform_func _ _
              (never_raises_returned config transform_func
                 (yielded (stream_records config src)) Hnr) [])
    as (out & logs & rest & Hloop & Hcat).
  rewrite Hloop, Hnone.
  destruct (batch_loop_full config transform_func _ [] out logs (Return rest)
              ltac:(simpl; lia) Hloop) as (Hfull & Hrest & _).
  specialize (Hrest rest eq_refl).
  exists out, rest.
  assert (Forall (fun x => length x = b) out) as Hfull'.
  { eapply Forall_impl; [exact Hfull|]. simpl. intros x Hx. subst b. lia. }
  destruct rest; simpl; (split; [by rewrite ?app_nil_r|]);
    repeat split; try done; subst b; simpl in *; lia.
Qed.

Lemma total_never_raises g : never_raises (total g).
Proof. intros f Hf elem. destruct g as [g|]; simplify_eq/=. eauto. Qed.

(** The sizes of the batches of a run over [N] records. *)
Lemma ingest_batch_sizes config src g :
  (1 <= batch_size config)%Z ->
  well_formed src ->
  let b := Z.to_nat (batch_size config) in
  let N := count_tag (record_tag config) (document src) in
  map length (yielded (ingest_batch config src (total g)))
  = replicate (N / b) b ++ (if (N mod b =? 0)%nat then [] else [(N mod b)%nat]).
Proof.
  intros HB Hwf b N.
  destruct (ingest_batch_run config src (total g) HB Hwf (total_never_raises g))
    as (out & rest & -> & _ & Hfull & Hrest & Hcat).
  fold b in Hfull, Hrest.
  assert (N = (b * length out + length rest)%nat) as HN.
  { subst N. destruct (stream_records_count config src Hwf) as [<- _].
    rewrite <- (length_map (returned config (total g))), <- Hcat.
    rewrite length_app, (length_concat_full b) by done. lia. }
  assert (length out = (N / b)%nat) as Hq
    by (by apply (Nat.div_unique _ _ _ (length rest))).
  assert (length rest = (N mod b)%nat) as Hr
    by (by apply (Nat.mod_unique _ _ (length out))).
  rewrite map_app, (map_length_full b) by done. rewrite Hq. f_equal.
  rewrite <- Hr. by destruct rest.
Qed.

(** C1. For every batch size (in particular every [B >= 1]) and every
    well-formed document, the batches yielded by [ingest_batch] with the
    default extractor, concatenated, are exactly the records obtained by
    applying [_element_to_dict] to each streamed record element in turn:
    same length, same order, same fields.  The run ends without an
    exception. *)
Theorem ingest_batch_concat_default config src :
  well_formed src ->
  concat (yielded (ingest_batch config src None))
  = map (_element_to_dict config) (yielded (stream_records config src))
  /\ raised (ingest_batch config src None) = None.
Proof.
  intros Hwf. unfold ingest_batch.
  destruct (stream_records_count config src Hwf) as [_ ->].
  destruct (batch_loop_concat config None (_element_to_dict config)
              (yielded (stream_records config src))
              ltac:(by apply Forall_forall) [])
    as (out & logs & rest & -> & Hcat).
  simpl in Hcat. rewrite <- Hcat.
  destruct rest; simpl; [by rewrite app_nil_r|].
  by rewrite concat_app; simpl; rewrite app_nil_r.
Qed.

(** C2. For a well-formed document with [N] elements carrying the record tag
    and a batch size [B >= 1], [ingest_batch] yields no batch when [N = 0]
    and otherwise exactly [k = ceil (N / B)] batches, that is
    [(k - 1) * B < N <= k * B]; the sizes are [B] repeated [N / B] times
    followed by the remainder if it is not zero, so that five records with
    [B = 2] come in batches of sizes [2; 2; 1]. *)
Theorem ingest_batch_count config src g :
  (1 <= batch_size config)%Z ->
  well_formed src ->
  let B := batch_size config in
  let N := count_tag (record_tag config) (document src) in
  let batches := yielded (ingest_batch config src (total g)) in
  let k := length batches in
  (N = 0%nat -> batches = [])
  /\ ((0 < N)%nat ->
      ((Z.of_nat k - 1) * B < Z.of_nat N <= Z.of_nat k * B)%Z)
  /\ map length batches
     = replicate (N / Z.to_nat B) (Z.to_nat B)
       ++ (if (N mod Z.to_nat B =? 0)%nat then []
           else [(N mod Z.to_nat B)%nat])
  /\ (N = 5%nat -> B = 2%Z -> map length batches = [2; 2; 1]%nat).
Proof.
  intros HB Hwf B N batches k.
  pose proof (ingest_batch_sizes config src g HB Hwf) as Hsizes.
  fold B N batches in Hsizes. simpl in Hsizes.
  assert (k = length (map length batches)) as Hk by (by rewrite length_map).
  rewrite Hsizes, length_app, length_replicate in Hk.
  set (b := Z.to_nat B) in *.
  assert (0 < b)%nat as Hb by (subst b B; lia).
  assert (B = Z.of_nat b) as HBb by (subst b B; lia).
  pose proof (Nat.div_mod_eq N b) as Hdm.
  pose proof (Nat.mod_upper_bound N b ltac:(lia)) as Hm.
  repeat split.
  - intros HN. apply (f_equal length) in Hsizes as Hl.
    rewrite HN in Hk. rewrite Nat.Div0.div_0_l, Nat.Div0.mod_0_l in Hk.
    simpl in Hk. subst k. by apply nil_length_inv.
  - destruct (N mod b =? 0)%nat eqn:E; simpl in Hk.
    + apply Nat.eqb_eq in E. nia.
    + apply Nat.eqb_neq in E. nia.
  - destruct (N mod b =? 0)%nat eqn:E; simpl in Hk.
    + apply Nat.eqb_eq in E. nia.
    + apply Nat.eqb_neq in E. nia.
  - done.
  - intros HN HB2. rewrite Hsizes.
    assert (b = 2%nat) as -> by lia. by rewrite HN.
Qed.

(** ** Schema validation and the table assembler *)

(** [validate_xml] raises nothing but the ingestion error. *)
Lemma validate_xml_raises config lxml src e :
  snd (validate_xml config lxml src) = Raise e ->
  exists msg, e = XMLIngestionError msg.
Proof.
  unfold validate_xml.
  destruct (validate_schema config), (schema_path config) as [path|];
    simpl; try done.
  destruct (decide (path = "")); simpl; [done|].
  destruct lxml as [validate|]; simpl; [|done].
  destruct (validate path src) as [| |[]]; simpl; try done;
    intros [= <-]; eauto.
Qed.

(** After a validation that passed the assembler returns the concatenated
    batches, or
    raises what ended the batcher. *)
Lemma ingest_to_dataframe_validated config lxml src transform_func :
  snd (validate_xml config lxml src) = Return true ->
  snd (ingest_to_dataframe config lxml src transform_func)
  = match raised (ingest_batch config src transform_func) with
    | Some e => Raise e
    | None => Return (concat (yielded (ingest_batch config src transform_func)))
    end.
Proof.
  intros Hvalid. unfold ingest_to_dataframe.
  destruct (validate_xml config lxml src) as [vlog vres]. simpl in Hvalid.
  subst vres.
  destruct (validate_schema config); simpl;
    destruct (raised (ingest_batch config src transform_func)); done.
Qed.

(** After a validation that did not pass the assembler stops with the log
    of the validator and
    the ingestion error, whatever the source and the transform. *)
Lemma ingest_to_dataframe_rejected config lxml src transform_func :
  validate_schema config = true ->
  snd (validate_xml config lxml src) ≠ Return true ->
  exists msg,
    ingest_to_dataframe config lxml src transform_func
    = (fst (validate_xml config lxml src), Raise (XMLIngestionError msg)).
Proof.
  intros Hon Hfail. unfold ingest_to_dataframe. rewrite Hon.
  pose proof (validate_xml_raises config lxml src) as Hraise.
  destruct (validate_xml config lxml src) as [vlog [[]|e]]; simpl in *.
  - done.
  - exists "XML validation failed". by rewrite app_nil_r.
  - destruct (Hraise e eq_refl) as [msg ->]. by exists msg.
Qed.

(** C7. With schema validation enabled, when validation of the source fails
    ([validate_xml] returns false, or raises), [ingest_to_dataframe] raises the
    ingestion error and returns no table.  Nothing is streamed: the log holds
    the records of the validator only, and the outcome is the same for every
    transform and for every way the source would parse. *)
Theorem ingest_to_dataframe_validation_fails config lxml src transform_func :
  validate_schema config = true ->
  (snd (validate_xml config lxml src) = Return false
   \/ exists e, snd (validate_xml config lxml src) = Raise e) ->
  (exists msg,
     ingest_to_dataframe config lxml src transform_func
     = (fst (validate_xml config lxml src), Raise (XMLIngestionError msg)))
  /\ (forall table,
        snd (ingest_to_dataframe config lxml src transform_func)
        ≠ Return table)
  /\ (forall transform_func' doc' fault',
        validate_xml config lxml (mkSource doc' fault')
        = validate_xml config lxml src ->
        ingest_to_dataframe config lxml (mkSource doc' fault') transform_func'
        = ingest_to_dataframe config lxml src transform_func).
Proof.
  intros Hon Hfail.
  assert (snd (validate_xml config lxml src) ≠ Return true) as Hne.
  { destruct Hfail as [->|[e ->]]; done. }
  destruct (ingest_to_dataframe_rejected config lxml src transform_func
              Hon Hne) as [msg Hmsg].
  split; [by exists msg|]. split.
  - intros table. by rewrite Hmsg.
  - intros transform_func' doc' fault' Hsame.
    unfold ingest_to_dataframe. rewrite Hon, Hsame.
    destruct (validate_xml config lxml src) as [vlog [[]|e]]; simpl in *; done.
Qed.

(** C9. For every batch size [B >= 1], every batch yielded by [ingest_batch]
    holds at least one and at most [B] records, whatever the source and the
    transform.  A well-formed source with no element carrying the record tag
    yields no batch, and [ingest_to_dataframe], once validation has passed,
    returns the empty table. *)
Theorem ingest_batch_bounds config lxml src transform_func :
  (1 <= batch_size config)%Z ->
  Forall (fun batch => batch ≠ []
                       /\ (Z.of_nat (length batch) <= batch_size config)%Z)
         (yielded (ingest_batch config src transform_func))
  /\ (well_formed src ->
      count_tag (record_tag config) (document src) = 0%nat ->
      yielded (ingest_batch config src transform_func) = []
      /\ raised (ingest_batch config src transform_func) = None
      /\ (snd (validate_xml config lxml src) = Return true ->
          snd (ingest_to_dataframe config lxml src transform_func)
          = Return [])).
Proof.
  intros HB. split.
  - unfold ingest_batch.
    destruct (batch_loop config transform_func
                (yielded (stream_records config src)) [])
      as [[out logs] fin] eqn:Hloop.
    destruct (batch_loop_full config transform_func _ [] out logs fin
                ltac:(simpl; lia) Hloop) as (Hfull & Hrest & _).
    assert (Forall (fun batch => batch ≠ []
              /\ (Z.of_nat (length batch) <= batch_size config)%Z) out)
      as Hout.
    { eapply Forall_impl; [exact Hfull|]. simpl. intros batch Hb.
      split; [|lia]. intros ->. simpl in Hb. lia. }
    destruct fin as [rest|e]; simpl; [|done].
    destruct (raised (stream_records config src)); simpl; [done|].
    destruct rest as [|r rest]; simpl; [done|].
    apply Forall_app. split; [done|]. constructor; [|constructor].
    split; [done|]. specialize (Hrest _ eq_refl). lia.
  - intros Hwf Hzero.
    destruct (stream_records_count config src Hwf) as [Hlen Hnone].
    rewrite Hzero in Hlen. apply nil_length_inv in Hlen.
    assert (ingest_batch config src transform_func = mkGenerated [] [] None)
      as Hrun.
    { unfold ingest_batch. rewrite Hlen, Hnone. done. }
    rewrite Hrun. simpl. repeat split.
    intros Hvalid.
    rewrite (ingest_to_dataframe_validated _ _ _ _ Hvalid), Hrun. done.
Qed.

(** C10. With [validate_schema] set and [schema_path] absent, [validate_xml]
    returns true and logs nothing, whatever the document and whatever the
    validator would say of it; [ingest_to_dataframe] then behaves exactly as
    with validation switched off. *)
Theorem validate_xml_without_schema_path config lxml src transform_func :
  validate_schema config = true ->
  schema_path config = None ->
  validate_xml config lxml src = ([], Return true)
  /\ ingest_to_dataframe config lxml src transform_func
     = ingest_to_dataframe
         {| batch_size := batch_size config;
            record_tag := record_tag config;
            namespaces := namespaces config;
            validate_schema := false;
            schema_path := schema_path config;
            encoding := encoding config;
            strip_whitespace := strip_whitespace config |}
         lxml src transform_func.
Proof.
  intros Hon Hpath.
  assert (validate_xml config lxml src = ([], Return true)) as Hv.
  { unfold validate_xml. by rewrite Hon, Hpath. }
  split; [done|].
  unfold ingest_to_dataframe. rewrite Hon, Hv. simpl.
  done.
Qed.

(** ** Errors of the reader and of the transform *)

Lemma batch_loop_default_returns config elems batch :
  exists out logs rest,
    batch_loop config None elems batch = (out, logs, Return rest).
Proof.
  destruct (batch_loop_concat config None (_element_to_dict config) elems
              ltac:(by apply Forall_forall) batch)
    as (out & logs & rest & H & _).
  eauto.
Qed.

(** C6. When the parser fails on a source, be it on malformed XML
    ([ParseError]) or on anything else, [stream_records] ends with
    [XMLIngestionError] carrying the text of the failure; the parser's own
    exception never leaves the reader, and the default pipeline passes the
    wrapped error on as it is. *)
Theorem stream_records_wraps_failure config src k e :
  fault src = Some (k, e) ->
  (exists prefix,
     raised (stream_records config src)
     = Some (XMLIngestionError (prefix +:+ exn_str e)))
  /\ (forall msg, e = ParseError msg ->
        raised (stream_records config src)
        = Some (XMLIngestionError ("XML parsing error: " +:+ msg)))
  /\ (forall msg, raised (stream_records config src) ≠ Some (ParseError msg))
  /\ raised (ingest_batch config src None)
     = raised (stream_records config src).
Proof.
  intros Hfault.
  assert (raised (stream_records config src) = Some (wrap_stream_error e))
    as Hraised.
  { unfold stream_records. rewrite Hfault. simpl.
    by destruct (iterparse _ _ _ _) as [[? ?] ?]. }
  repeat split.
  - rewrite Hraised. destruct e; simpl; eauto.
  - intros msg ->. by rewrite Hraised.
  - intros msg. rewrite Hraised. by destruct e.
  - unfold ingest_batch.
    destruct (batch_loop_default_returns config
                (yielded (stream_records config src)) [])
      as (out & logs & rest & ->).
    rewrite Hraised. by destruct e.
Qed.

(** C8. When the caller's transform raises on a streamed record (the first
    such record, the transform having returned on those before it),
    [ingest_batch] ends with that very exception, unwrapped, unless it is a
    [StopIteration]: as [ingest_batch] is a generator, that one comes out as
    [RuntimeError].  Either way the ingestion is aborted: the batches yielded
    before are full ones, the records buffered since are dropped, and
    [ingest_to_dataframe], once validation has passed, raises the same
    exception as [ingest_batch]. *)
Theorem transform_failure_propagates config lxml src f pre elem post e :
  yielded (stream_records config src) = pre ++ elem :: post ->
  Forall (fun x => exists r, f x = Return r) pre ->
  f elem = Raise e ->
  (is_stop_iteration e = false ->
   raised (ingest_batch config src (Some f)) = Some e
   /\ (snd (validate_xml config lxml src) = Return true ->
       snd (ingest_to_dataframe config lxml src (Some f)) = Raise e))
  /\ (is_stop_iteration e = true ->
      raised (ingest_batch config src (Some f))
      = Some (RuntimeError "generator raised StopIteration")
      /\ (snd (validate_xml config lxml src) = Return true ->
          snd (ingest_to_dataframe config lxml src (Some f))
          = Raise (RuntimeError "generator raised StopIteration")))
  /\ length (concat (yielded (ingest_batch config src (Some f)))) <= length pre
  /\ ((1 <= batch_size config)%Z ->
      Forall (fun batch => Z.of_nat (length batch) = batch_size config)
             (yielded (ingest_batch config src (Some f)))).
Proof.
  intros Hstream Hpre Hraise.
  destruct (batch_loop_raise config (Some f) pre elem post e Hpre Hraise [])
    as (out & logs & Hloop & Hlen).
  assert (ingest_batch config src (Some f)
          = mkGenerated out logs (Some (leave_generator e))) as Hrun.
  { unfold ingest_batch. by rewrite Hstream, Hloop. }
  rewrite Hrun. simpl. unfold leave_generator.
  split; [|split; [|split]].
  - intros Hstop. rewrite Hstop. split; [done|]. intros Hvalid.
    rewrite (ingest_to_dataframe_validated _ _ _ _ Hvalid), Hrun. simpl.
    unfold leave_generator. by rewrite Hstop.
  - intros Hstop. rewrite Hstop. split; [done|]. intros Hvalid.
    rewrite (ingest_to_dataframe_validated _ _ _ _ Hvalid), Hrun. simpl.
    unfold leave_generator. by rewrite Hstop.
  - simpl in Hlen. lia.
  - intros HB.
    by destruct (batch_loop_full config (Some f) _ [] out logs (Raise e)
                   ltac:(simpl; lia) Hloop) as (Hfull & _).
Qed.

(** ** The type coercion helper *)

(** C4. For every target kind and every default, [_convert_type] returns the
    default at once, logging nothing, when the value is [None] or a string
    that is empty or all whitespace; no conversion is attempted, whatever
    [int], [float] or the target callable would do. *)
Theorem convert_type_blank py_int py_float value target_type default :
  value = PyNone
  \/ (exists s, value = PyStr s /\ PyStr.all_space s = true) ->
  _convert_type py_int py_float value target_type default = ret default.
Proof.
  intros [->|(s & -> & Hs)]; unfold _convert_type; simpl; [done|].
  by rewrite bool_decide_eq_true_2 by (by apply strip_empty_iff).
Qed.

(** C5. For a non-empty string, coercion to the integer or to the decimal
    kind never raises: it returns the number parsed, or, when the parse
    fails, the default.  [int] and [float] raise nothing but [ValueError] on
    a string. *)
Theorem convert_type_number py_int py_float s default :
  (forall t e, py_int (PyStr t) = Raise e -> exists msg, e = ValueError msg) ->
  (forall t e, py_float (PyStr t) = Raise e -> exists msg, e = ValueError msg) ->
  s ≠ "" ->
  let as_int := snd (_convert_type py_int py_float (PyStr s) KInt default) in
  let as_float :=
    snd (_convert_type py_int py_float (PyStr s) KFloat default) in
  (forall e, as_int ≠ Raise e /\ as_float ≠ Raise e)
  /\ (as_int = Return default
      \/ exists z, py_int (PyStr s) = Return z /\ as_int = Return (PyInt z))
  /\ (as_float = Return default
      \/ exists x, py_float (PyStr s) = Return x
                   /\ as_float = Return (PyFloat x))
  /\ (forall z, PyStr.all_space s = false ->
        py_int (PyStr s) = Return z -> as_int = Return (PyInt z))
  /\ (forall x, PyStr.all_space s = false ->
        py_float (PyStr s) = Return x -> as_float = Return (PyFloat x))
  /\ (forall e, py_int (PyStr s) = Raise e -> as_int = Return default)
  /\ (forall e, py_float (PyStr s) = Raise e -> as_float = Return default).
Proof.
  intros Hint Hfloat _ as_int as_float. subst as_int as_float.
  unfold _convert_type, convert. simpl.
  destruct (bool_decide_reflect (PyStr.strip s = "")) as [Hblank|Hfull]; simpl.
  { apply strip_empty_iff in Hblank. rewrite Hblank.
    repeat split; auto; done. }
  pose proof (Hint s) as Hi. pose proof (Hfloat s) as Hf.
  destruct (py_int (PyStr s)) as [z|ei], (py_float (PyStr s)) as [x|ef];
    try (destruct (Hi ei eq_refl) as [mi ->]);
    try (destruct (Hf ef eq_refl) as [mf ->]);
    simpl; repeat split; eauto; try done; congruence.
Qed.

(** ** The record extractor on parsed elements *)

Lemma local_name_parsed t : parsed_tag t -> local_name t = strip_namespace t.
Proof.
  unfold parsed_tag, strip_namespace. intros Hc.
  destruct (PyStr.count "}" t) as [|[|n]] eqn:E; [| |lia].
  - assert (PyStr.contains "}" t = false) as Hn.
    { destruct (PyStr.contains "}" t) eqn:C; [|done].
      apply contains_count in C. lia. }
    by rewrite local_name_plain, after_first_brace_none.
  - destruct (local_name_single_brace t E) as [-> _]. done.
Qed.

Lemma texts_named_parsed config k cs :
  Forall (fun c => parsed_tag (tag c)) cs ->
  texts_named config k cs = texts_of_local_name config k cs.
Proof.
  induction 1 as [|c cs Hc _ IH]; simpl; [done|].
  by rewrite (local_name_parsed _ Hc), IH.
Qed.

(** C3. For every element whose children carry tags as the parser builds
    them, the default extractor seeds the record with every attribute and
    then takes the direct children in document order, each under its local
    name (everything up to and including the namespace delimiter dropped): a
    new name is stored as the text, a name already holding a scalar is
    promoted to a two-element sequence, a name already holding a sequence
    gets the text appended.  Two children [<tag>a</tag><tag>b</tag>] thus
    give [{"tag": ["a", "b"]}]. *)
Theorem element_to_dict_children config e :
  Forall (fun c => parsed_tag (tag c)) (children e) ->
  (forall k v, attrib e !! k = Some v ->
     is_Some (_element_to_dict config e !! k))
  /\ (forall k,
        _element_to_dict config e !! k
        = fold_left absorb (texts_of_local_name config k (children e))
                    (PyStr <$> attrib e !! k))
  /\ (forall k, texts_of_local_name config k (children e) = [] ->
        _element_to_dict config e !! k = PyStr <$> attrib e !! k)
  /\ (forall t x a b,
        _element_to_dict config
          (mkElement t ∅ x [leaf "tag" a; leaf "tag" b])
        = {[ "tag" := PyList [PyStr (_safe_get_text config (leaf "tag" a) "");
                              PyStr (_safe_get_text config (leaf "tag" b) "")]
          ]})
  /\ _element_to_dict config
       (mkElement "record" ∅ None [leaf "tag" "a"; leaf "tag" "b"])
     = {[ "tag" := PyList [PyStr "a"; PyStr "b"] ]}.
Proof.
  intros Hparsed.
  assert (forall k,
    _element_to_dict config e !! k
    = fold_left absorb (texts_of_local_name config k (children e))
                (PyStr <$> attrib e !! k)) as Hfield.
  { intros k. by rewrite element_to_dict_lookup, texts_named_parsed. }
  split; [|split; [done|split; [|split]]].
  - intros k v Hv. by eapply element_to_dict_attribute.
  - intros k Hnone. by rewrite Hfield, Hnone.
  - intros t x a b. apply map_eq. intros k.
    rewrite element_to_dict_lookup. simpl.
    change (local_name "tag") with "tag".
    destruct (decide ("tag" = k)) as [<-|Hne]; simpl.
    + by rewrite lookup_empty, lookup_singleton_eq.
    + by rewrite lookup_empty, lookup_singleton_ne.
  - by destruct config as [? ? ? ? ? ? []]; vm_compute.
Qed.

(** Outside the tags the parser builds: an element put together by hand
    with two closing braces in the tag of its child is stored under the
    piece between the two. *)
Example two_braces_by_hand :
  tag braced_child = "{http://a}b}item"
  /\ after_last_brace (tag braced_child) = Some "item"
  /\ after_first_brace (tag braced_child) = Some "b}item"
  /\ local_name (tag braced_child) = "b"
  /\ _element_to_dict default_config braced_record = {[ "b" := PyStr "x" ]}
  /\ _element_to_dict default_config braced_record !! "item" = None.
Proof. repeat split; by vm_compute. Qed.

Lemma element_to_dict_children_witness :
  Forall (fun c => parsed_tag (tag c)) (children namespaced_record)
  /\ _element_to_dict pairs namespaced_record !! "name"
     = fold_left absorb
         (texts_of_local_name pairs "name" (children namespaced_record))
         (PyStr <$> attrib namespaced_record !! "name")
  /\ _element_to_dict pairs namespaced_record !! "name" = Some (PyStr "x").
Proof.
  assert (Forall (fun c => parsed_tag (tag c)) (children namespaced_record))
    as Hparsed by (repeat constructor; unfold parsed_tag; simpl; lia).
  split; [exact Hparsed|].
  destruct (element_to_dict_children pairs namespaced_record Hparsed)
    as (_ & Hfield & _).
  split; [exact (Hfield "name")|].
  by vm_compute.
Defined.

(** ** The scenarios of the specification, and the theorems at work *)

Example duplicate_child_tags :
  _element_to_dict default_config
    (mkElement "record" ∅ None [leaf "tag" "a"; leaf "tag" "b"])
  = {[ "tag" := PyList [PyStr "a"; PyStr "b"] ]}.
Proof. by vm_compute. Qed.

Example sample_record_fields :
  _element_to_dict default_config (sample_record "7")
  = {[ "id" := PyStr "7"; "name" := PyStr "item";
       "tag" := PyList [PyStr "a"; PyStr "b"] ]}.
Proof. by vm_compute. Qed.

Example coerce_boolean :
  _convert_type decimal_int integer_float (PyStr "TRUE") KBool (PyBool false)
  = ret (PyBool true).
Proof. by vm_compute. Qed.

Example coerce_missing_quantity :
  _convert_type decimal_int integer_float (PyStr "") KInt (PyInt 0)
  = ret (PyInt 0).
Proof. by vm_compute. Qed.

(** A record inside a record: the inner one is streamed first and cleared,
    so the outer one is streamed with an empty child in its place. *)
Example nested_record_is_cleared :
  let inner := mkElement "record" {[ "id" := "2" ]} (Some "in") [] in
  let outer := mkElement "record" {[ "id" := "1" ]} None [inner] in
  yielded (stream_records pairs (mkSource outer None))
  = [inner; mkElement "record" {[ "id" := "1" ]} None [clear inner]]
  /\ concat (yielded (ingest_batch pairs (mkSource outer None) None))
     = [ {[ "id" := PyStr "2" ]};
         {[ "id" := PyStr "1"; "record" := PyStr "" ]} ].
Proof. split; by vm_compute. Qed.

Example batches_of_five :
  map length (yielded (ingest_batch pairs five_records None)) = [2; 2; 1]%nat.
Proof. by vm_compute. Qed.

Lemma decimal_int_raises t e :
  decimal_int (PyStr t) = Raise e -> exists msg, e = ValueError msg.
Proof.
  unfold decimal_int.
  destruct (match PyStr.strip t with
            | String "-" u => Z.opp <$> unsigned_literal u
            | String "+" u => unsigned_literal u
            | u => unsigned_literal u
            end); [done|].
  intros [= <-]. eauto.
Qed.

Lemma integer_float_raises t e :
  integer_float (PyStr t) = Raise e -> exists msg, e = ValueError msg.
Proof.
  unfold integer_float.
  destruct (decimal_int (PyStr t)) as [z|]; [|intros [= <-]; eauto].
  destruct (Z.abs z <? 2 ^ 53)%Z; [done|]. intros [= <-]. eauto.
Qed.

Lemma ingest_batch_concat_default_witness :
  well_formed five_records
  /\ concat (yielded (ingest_batch pairs five_records None))
     = map (_element_to_dict pairs)
           (yielded (stream_records pairs five_records)).
Proof.
  assert (well_formed five_records) as Hwf by reflexivity.
  split; [exact Hwf|].
  exact (proj1 (ingest_batch_concat_default pairs five_records Hwf)).
Defined.

Lemma ingest_batch_count_witness :
  (1 <= batch_size pairs)%Z
  /\ well_formed five_records
  /\ map length (yielded (ingest_batch pairs five_records (total None)))
     = [2; 2; 1]%nat.
Proof.
  assert (1 <= batch_size pairs)%Z as HB by (simpl; lia).
  assert (well_formed five_records) as Hwf by reflexivity.
  split; [exact HB|]. split; [exact Hwf|].
  destruct (ingest_batch_count pairs five_records None HB Hwf)
    as (_ & _ & _ & Hfive).
  apply Hfive; reflexivity.
Defined.

Lemma convert_type_blank_witness :
  PyStr.all_space "   " = true
  /\ _convert_type decimal_int integer_float (PyStr "   ") KFloat (PyInt 0)
     = ret (PyInt 0).
Proof.
  split; [reflexivity|].
  apply (convert_type_blank decimal_int integer_float (PyStr "   ")).
  right. exists "   ". split; reflexivity.
Defined.

Lemma convert_type_number_witness :
  "12a" ≠ ""
  /\ snd (_convert_type decimal_int integer_float (PyStr "12a") KInt (PyInt 0))
     = Return (PyInt 0).
Proof.
  assert ("12a" ≠ "") as Hne by discriminate.
  split; [exact Hne|].
  destruct (convert_type_number decimal_int integer_float "12a" (PyInt 0)
              decimal_int_raises integer_float_raises Hne)
    as (_ & _ & _ & _ & _ & Hint & _).
  apply (Hint (ValueError "invalid literal for int() with base 10")).
  reflexivity.
Defined.

Lemma stream_records_wraps_failure_witness :
  fault truncated
  = Some (8%nat, ParseError "no element found: line 9, column 0")
  /\ raised (stream_records pairs truncated)
     = Some (XMLIngestionError
               "XML parsing error: no element found: line 9, column 0").
Proof.
  split; [reflexivity|].
  destruct (stream_records_wraps_failure pairs truncated 8
              (ParseError "no element found: line 9, column 0") eq_refl)
    as (_ & Hparse & _).
  apply (Hparse "no element found: line 9, column 0"). reflexivity.
Defined.

Lemma ingest_to_dataframe_validation_fails_witness :
  validate_schema strict = true
  /\ snd (validate_xml strict rejecting five_records) = Return false
  /\ forall table,
       snd (ingest_to_dataframe strict rejecting five_records None)
       ≠ Return table.
Proof.
  split; [reflexivity|]. split; [reflexivity|].
  destruct (ingest_to_dataframe_validation_fails strict rejecting five_records
              None eq_refl (or_introl eq_refl))
    as (_ & Hnone & _).
  exact Hnone.
Defined.

Lemma transform_failure_propagates_witness :
  picky (sample_record "3") = Raise (ValueError "bad record")
  /\ raised (ingest_batch pairs five_records (Some picky))
     = Some (ValueError "bad record").
Proof.
  assert (picky (sample_record "3") = Raise (ValueError "bad record"))
    as Hraise by (by vm_compute).
  split; [exact Hraise|].
  destruct (transform_failure_propagates pairs None five_records picky
              [sample_record "1"; sample_record "2"] (sample_record "3")
              [sample_record "4"; sample_record "5"]
              (ValueError "bad record"))
    as (Hrun & _).
  - by vm_compute.
  - repeat constructor; eexists; by vm_compute.
  - exact Hraise.
  - exact (proj1 (Hrun eq_refl)).
Defined.

(** A transform that raises [StopIteration] on the first record: what
    leaves [ingest_batch], and then [ingest_to_dataframe], is not that
    exception but a [RuntimeError]. *)
Lemma transform_stop_iteration_is_replaced :
  exhausted (sample_record "1") = Raise (StopIteration "")
  /\ raised (ingest_batch pairs five_records (Some exhausted))
     ≠ Some (StopIteration "")
  /\ raised (ingest_batch pairs five_records (Some exhausted))
     = Some (RuntimeError "generator raised StopIteration")
  /\ snd (ingest_to_dataframe pairs None five_records (Some exhausted))
     = Raise (RuntimeError "generator raised StopIteration").
Proof. repeat split; by vm_compute. Qed.

Lemma ingest_batch_bounds_witness :
  (1 <= batch_size pairs)%Z
  /\ Forall (fun batch => batch ≠ []
                          /\ (Z.of_nat (length batch) <= batch_size pairs)%Z)
            (yielded (ingest_batch pairs five_records None))
  /\ snd (ingest_to_dataframe pairs rejecting no_records None) = Return [].
Proof.
  assert (1 <= batch_size pairs)%Z as HB by (simpl; lia).
  split; [exact HB|].
  split.
  - exact (proj1 (ingest_batch_bounds pairs rejecting five_records None HB)).
  - destruct (ingest_batch_bounds pairs rejecting no_records None HB)
      as (_ & Hempty).
    destruct (Hempty eq_refl eq_refl) as (_ & _ & Htable).
    apply Htable. reflexivity.
Defined.

Lemma validate_xml_without_schema_path_witness :
  validate_schema strict_without_schema = true
  /\ schema_path strict_without_schema = None
  /\ validate_xml strict_without_schema rejecting five_records
     = ([], Return true).
Proof.
  split; [reflexivity|]. split; [reflexivity|].
  exact (proj1 (validate_xml_without_schema_path strict_without_schema
                  rejecting five_records None eq_refl eq_refl)).
Defined.

(** * Further properties *)

(** ** The batcher and the assembler on every source *)

Section BatchLoopMore.

Variable config : XMLIngestionConfig.
Variable transform_func : option (Element -> result (gmap string pyval)).

Local Abbreviation loop := (batch_loop config transform_func).

(** The loop against sequential extraction: it ends with the first exception
    of the transform, or with all the records, batched in order. *)
Lemma batch_loop_collect elems : forall batch out logs fin,
  loop elems batch = (out, logs, fin) ->
  match collect config transform_func elems with
  | Return records =>
      exists rest, fin = Return rest /\ concat out ++ rest = batch ++ records
  | Raise e => fin = Raise e
  end.
Proof.
  induction elems as [|elem elems IH]; intros batch out logs fin; simpl.
  - intros [= <- <- <-]. exists batch. by rewrite app_nil_r.
  - destruct (to_record config transform_func elem) as [record|e];
      [|by intros [= <- <- <-]].
    destruct (batch_size config <=? Z.of_nat (length (batch ++ [record])))%Z.
    + destruct (loop elems []) as [[out' logs'] fin'] eqn:E.
      intros [= <- <- <-]. specialize (IH _ _ _ _ E).
      destruct (collect config transform_func elems) as [records|e]; [|done].
      destruct IH as (rest & -> & Hcat). exists rest. split; [done|].
      simpl. rewrite <- !app_assoc, Hcat. done.
    + intros E. specialize (IH _ _ _ _ E).
      destruct (collect config transform_func elems) as [records|e]; [|done].
      destruct IH as (rest & -> & Hcat). exists rest. split; [done|].
      by rewrite Hcat, <- app_assoc.
Qed.

(** One log record per batch yielded inside the loop, with its size. *)
Lemma batch_loop_logs elems : forall batch out logs fin,
  loop elems batch = (out, logs, fin) ->
  logs = map (fun b => Info_batch (length b)) out.
Proof.
  induction elems as [|elem elems IH]; intros batch out logs fin; simpl.
  - by intros [= <- <- <-].
  - destruct (to_record config transform_func elem) as [record|e];
      [|by intros [= <- <- <-]].
    destruct (batch_size config <=? Z.of_nat (length (batch ++ [record])))%Z.
    + destruct (loop elems []) as [[out' logs'] fin'] eqn:E.
      intros [= <- <- <-]. simpl. f_equal. by eapply IH.
    + apply IH.
Qed.

(** With a batch size of zero or less the buffer is flushed after every
    record. *)
Lemma batch_loop_singletons elems : forall out logs fin,
  (batch_size config <= 0)%Z ->
  loop elems [] = (out, logs, fin) ->
  Forall (fun b => length b = 1%nat) out
  /\ (forall rest, fin = Return rest -> rest = []).
Proof.
  induction elems as [|elem elems IH]; intros out logs fin HB; simpl.
  - intros [= <- <- <-]. split; [constructor|]. by intros rest [= <-].
  - destruct (to_record config transform_func elem) as [record|e].
    2:{ intros [= <- <- <-]. split; [constructor|done]. }
    destruct (batch_size config <=? _)%Z eqn:Hle;
      [|apply Z.leb_gt in Hle; simpl in Hle; lia].
    destruct (loop elems []) as [[out' logs'] fin'] eqn:E.
    intros [= <- <- <-]. destruct (IH _ _ _ HB eq_refl) as [Hone Hrest].
    split; [by constructor|done].
Qed.

End BatchLoopMore.

(** How a run of [ingest_batch] ends, and what it has yielded when it ends
    well, in terms of sequential extraction. *)
Lemma ingest_batch_outcome config src transform_func :
  let stream := stream_records config src in
  let run := ingest_batch config src transform_func in
  match collect config transform_func (yielded stream) with
  | Raise e => raised run = Some (leave_generator e)
  | Return records =>
      raised run = leave_generator <$> raised stream
      /\ (raised stream = None -> concat (yielded run) = records)
  end.
Proof.
  intros stream run. subst run. unfold ingest_batch. fold stream.
  destruct (batch_loop config transform_func (yielded stream) [])
    as [[out logs] fin] eqn:Hloop.
  pose proof (batch_loop_collect config transform_func _ _ _ _ _ Hloop) as H.
  destruct (collect config transform_func (yielded stream)) as [records|e].
  - destruct H as (rest & -> & Hcat). simpl in Hcat.
    destruct (raised stream) as [e|]; simpl; [done|].
    split; [by destruct rest|]. intros _. rewrite <- Hcat.
    destruct rest; simpl; [by rewrite app_nil_r|].
    by rewrite concat_app; simpl; rewrite app_nil_r.
  - by subst fin.
Qed.

Lemma drain_ingest_batch config src transform_func :
  snd (drain (ingest_batch config src transform_func))
  = match assembled config src transform_func with
    | Return _ =>
        Return (yielded (ingest_batch config src transform_func))
    | Raise e => Raise e
    end
  /\ (forall records, assembled config src transform_func = Return records ->
        concat (yielded (ingest_batch config src transform_func)) = records).
Proof.
  unfold drain, assembled. simpl.
  pose proof (ingest_batch_outcome config src transform_func) as H.
  simpl in H.
  destruct (collect config transform_func
              (yielded (stream_records config src))) as [records|e].
  - destruct H as [-> Hcat].
    destruct (raised (stream_records config src)); simpl; [done|].
    split; [done|]. intros records' Heq. simplify_eq. auto.
  - by rewrite H.
Qed.

(** The outcome of [ingest_to_dataframe], step by step. *)
Lemma ingest_to_dataframe_result config lxml src transform_func :
  snd (ingest_to_dataframe config lxml src transform_func)
  = if validate_schema config then
      match snd (validate_xml config lxml src) with
      | Raise e => Raise e
      | Return false => Raise (XMLIngestionError "XML validation failed")
      | Return true => assembled config src transform_func
      end
    else assembled config src transform_func.
Proof.
  destruct (drain_ingest_batch config src transform_func) as [Hdrain Hcat].
  unfold ingest_to_dataframe.
  destruct (drain (ingest_batch config src transform_func)) as [dlog dres].
  simpl in Hdrain. subst dres.
  destruct (validate_schema config); simpl.
  - destruct (validate_xml config lxml src) as [vlog [[]|e]]; simpl; [|done..].
    destruct (assembled config src transform_func) as [records|e]; simpl;
      [|done].
    by rewrite (Hcat records eq_refl).
  - destruct (assembled config src transform_func) as [records|e]; simpl;
      [|done].
    by rewrite (Hcat records eq_refl).
Qed.

(** X1. The outcome of [ingest_to_dataframe] on any source with any
    transform: a failed validation comes first, then the first exception of
    the transform on an element delivered by the reader, then the failure of
    the reader, and otherwise the table of all records in document order.
    The exceptions of the transform and of the reader pass through the
    generator [ingest_batch]: a [StopIteration] comes out as [RuntimeError],
    any other as it is. *)
Theorem ingest_to_dataframe_outcome config lxml src transform_func :
  snd (ingest_to_dataframe config lxml src transform_func)
  = if validate_schema config then
      match snd (validate_xml config lxml src) with
      | Raise e => Raise e
      | Return false => Raise (XMLIngestionError "XML validation failed")
      | Return true => assembled config src transform_func
      end
    else assembled config src transform_func.
Proof.
  destruct (drain_ingest_batch config src transform_func) as [Hdrain Hcat].
  unfold ingest_to_dataframe.
  destruct (drain (ingest_batch config src transform_func)) as [dlog dres].
  simpl in Hdrain. subst dres.
  destruct (validate_schema config); simpl.
  - destruct (validate_xml config lxml src) as [vlog [[]|e]]; simpl; [|done..].
    destruct (assembled config src transform_func) as [records|e]; simpl;
      [|done].
    by rewrite (Hcat records eq_refl).
  - destruct (assembled config src transform_func) as [records|e]; simpl;
      [|done].
    by rewrite (Hcat records eq_refl).
Qed.

Lemma collect_with_batch_size config size transform_func elems :
  collect (with_batch_size config size) transform_func elems
  = collect config transform_func elems.
Proof.
  induction elems as [|elem elems IH]; simpl; [done|].
  rewrite IH. reflexivity.
Qed.

(** X2. The batch size changes neither the table [ingest_to_dataframe]
    returns nor the exception it raises, on any source, with any transform
    and any validator; it groups the records and nothing else. *)
Theorem ingest_to_dataframe_any_batch_size config size lxml src transform_func :
  snd (ingest_to_dataframe (with_batch_size config size) lxml src
         transform_func)
  = snd (ingest_to_dataframe config lxml src transform_func).
Proof.
  rewrite !ingest_to_dataframe_result.
  assert (assembled (with_batch_size config size) src transform_func
          = assembled config src transform_func) as ->.
  { unfold assembled.
    change (stream_records (with_batch_size config size) src)
      with (stream_records config src).
    by rewrite collect_with_batch_size. }
  reflexivity.
Qed.

Lemma returned_total config g elem :
  returned config (total g) elem
  = match g with Some f => f elem | None => _element_to_dict config elem end.
Proof. by destruct g. Qed.

Lemma collect_total config g elems :
  collect config (total g) elems
  = Return (map (returned config (total g)) elems).
Proof.
  induction elems as [|elem elems IH]; simpl; [done|].
  rewrite IH. unfold returned. by destruct g.
Qed.

(** X3. Row count.  On a well-formed source whose validation passes, with a
    transform that returns on every element, [ingest_to_dataframe] returns
    one row per element carrying the record tag, each the transform of that
    element, in document order, and the last record it logs is the total. *)
Theorem ingest_to_dataframe_rows config lxml src g :
  well_formed src ->
  snd (validate_xml config lxml src) = Return true ->
  let N := count_tag (record_tag config) (document src) in
  let table := map (returned config (total g))
                   (yielded (stream_records config src)) in
  snd (ingest_to_dataframe config lxml src (total g)) = Return table
  /\ length table = N
  /\ last (fst (ingest_to_dataframe config lxml src (total g)))
     = Some (Info_total N).
Proof.
  intros Hwf Hvalid N table.
  destruct (stream_records_count config src Hwf) as [Hlen Hnone].
  assert (assembled config src (total g) = Return table) as Hasm.
  { unfold assembled. by rewrite collect_total, Hnone. }
  assert (length table = N) as HN by (subst table; by rewrite length_map).
  split; [|split; [done|]].
  - rewrite ingest_to_dataframe_result, Hvalid, Hasm.
    by destruct (validate_schema config).
  - destruct (drain_ingest_batch config src (total g)) as [Hdrain Hcat].
    rewrite Hasm in Hdrain. specialize (Hcat table Hasm).
    unfold ingest_to_dataframe.
    destruct (drain (ingest_batch config src (total g))) as [dlog dres].
    simpl in Hdrain. subst dres.
    destruct (validate_xml config lxml src) as [vlog vres].
    simpl in Hvalid. subst vres.
    destruct (validate_schema config); simpl;
      rewrite Hcat, HN, ?app_nil_r, ?app_assoc; apply last_snoc.
Qed.

(** X4. With a batch size of zero or less every batch holds exactly one
    record, on any source and with any transform. *)
Theorem ingest_batch_nonpositive_size config src transform_func :
  (batch_size config <= 0)%Z ->
  Forall (fun batch => length batch = 1%nat)
         (yielded (ingest_batch config src transform_func)).
Proof.
  intros HB. unfold ingest_batch.
  destruct (batch_loop config transform_func
              (yielded (stream_records config src)) [])
    as [[out logs] fin] eqn:Hloop.
  destruct (batch_loop_singletons config transform_func _ _ _ _ HB Hloop)
    as [Hone Hrest].
  destruct fin as [rest|e]; simpl; [|done].
  rewrite (Hrest rest eq_refl).
  by destruct (raised (stream_records config src)).
Qed.

(** X5. Progress logging.  A run of [ingest_batch] logs exactly one record
    per batch it yields, in the same order, carrying the size of that
    batch. *)
Theorem ingest_batch_logs_every_batch config src transform_func :
  Forall2 (fun entry batch => entry = Info_batch (length batch)
                              \/ entry = Info_final_batch (length batch))
          (logged (ingest_batch config src transform_func))
          (yielded (ingest_batch config src transform_func)).
Proof.
  unfold ingest_batch.
  destruct (batch_loop config transform_func
              (yielded (stream_records config src)) [])
    as [[out logs] fin] eqn:Hloop.
  rewrite (batch_loop_logs config transform_func _ _ _ _ _ Hloop).
  assert (Forall2 (fun entry batch : _ => entry = Info_batch (length batch)
                     \/ entry = Info_final_batch (length batch))
            (map (fun b : list (gmap string pyval) => Info_batch (length b)) out)
            out) as Hout.
  { clear Hloop. induction out; simpl; constructor; auto. }
  destruct fin as [rest|e]; simpl; [|done].
  destruct (raised (stream_records config src)); simpl; [done|].
  destruct rest; simpl; [done|].
  apply Forall2_app; [done|]. constructor; [by right|constructor].
Qed.

(** X6. What a failing reader costs.  For a batch size [B >= 1] and a
    transform that returns on every element, the records yielded in batches
    are the records extracted from the delivered elements, in order, short
    of fewer than [B] of them at the end; none is missing when the source is
    well-formed. *)
Theorem ingest_batch_drops_less_than_a_batch config src g :
  (1 <= batch_size config)%Z ->
  exists lost,
    map (returned config (total g)) (yielded (stream_records config src))
    = concat (yielded (ingest_batch config src (total g))) ++ lost
    /\ (Z.of_nat (length lost) < batch_size config)%Z
    /\ (well_formed src -> lost = []).
Proof.
  intros HB. unfold ingest_batch.
  destruct (batch_loop_concat config (total g) (returned config (total g))
              (yielded (stream_records config src))
              (never_raises_returned config (total g) _
                 (total_never_raises g)) [])
    as (out & logs & rest & Hloop & Hcat).
  rewrite Hloop.
  destruct (batch_loop_full config (total g) _ [] out logs (Return rest)
              ltac:(simpl; lia) Hloop) as (_ & Hrest & _).
  specialize (Hrest rest eq_refl). simpl in Hcat.
  destruct (raised (stream_records config src)) eqn:Hraised; simpl.
  - exists rest. split; [done|]. split; [done|].
    intros Hwf. destruct (stream_records_count config src Hwf) as [_ Hnone].
    congruence.
  - exists []. rewrite app_nil_r. split; [|split; [simpl; lia|done]].
    rewrite <- Hcat. destruct rest; simpl; [by rewrite app_nil_r|].
    by rewrite concat_app; simpl; rewrite app_nil_r.
Qed.

(** ** The reader on a source that fails *)

Lemma iter_unfold e : iter e = e :: iter_all (children e).
Proof.
  destruct e as [t a x cs]. unfold iter_all. simpl. f_equal.
  induction cs as [|c cs IH]; simpl; [done|]. by rewrite IH.
Qed.

Section IterparseLimit.

Context {St : Type}.
Variable body : Element -> St -> St * Element.

(** One event per element: the count of events after a whole document. *)
Lemma iterparse_counts e : forall n s,
  fst (fst (iterparse body None e (n, s))) = (n + length (iter e))%nat.
Proof.
  induction e as [t a x cs IH] using Element_ind. intros n s.
  rewrite iterparse_unfold, iter_unfold. simpl.
  assert (forall n s,
    fst (fst (iterparse_children body None cs (n, s)))
    = (n + length (iter_all cs))%nat) as Hcs.
  { clear n s. induction IH as [|c cs Hc _ IHcs]; intros n s; simpl.
    - unfold iter_all. simpl. lia.
    - specialize (Hc n s).
      destruct (iterparse body None c (n, s)) as [[n1 s1] c'].
      specialize (IHcs n1 s1).
      destruct (iterparse_children body None cs (n1, s1)) as [[n2 s2] cs'].
      simpl in *. unfold iter_all in *. simpl. rewrite length_app. lia. }
  specialize (Hcs n s).
  destruct (iterparse_children body None cs (n, s)) as [[n1 s1] cs'].
  simpl in *. destruct (body _ s1). simpl. lia.
Qed.

(** Once the parser has failed nothing more happens. *)
Lemma iterparse_after_failure k e : forall n s,
  k <= n -> iterparse body (Some k) e (n, s) = ((n, s), e).
Proof.
  induction e as [t a x cs IH] using Element_ind. intros n s Hk.
  rewrite iterparse_unfold. simpl.
  assert (iterparse_children body (Some k) cs (n, s) = ((n, s), cs)) as ->.
  { induction IH as [|c cs Hc _ IHcs]; simpl; [done|].
    by rewrite (Hc n s Hk), IHcs. }
  assert ((n <? k) = false) as -> by (apply Nat.ltb_ge; lia).
  done.
Qed.

Lemma iterparse_children_after_failure k cs : forall n s,
  k <= n -> iterparse_children body (Some k) cs (n, s) = ((n, s), cs).
Proof.
  induction cs as [|c cs IH]; intros n s Hk; simpl; [done|].
  by rewrite iterparse_after_failure, IH.
Qed.

(** A failure that lies after the last event changes nothing. *)
Lemma iterparse_before_failure k e : forall n s,
  n + length (iter e) <= k ->
  iterparse body (Some k) e (n, s) = iterparse body None e (n, s).
Proof.
  induction e as [t a x cs IH] using Element_ind. intros n s.
  rewrite !iterparse_unfold, iter_unfold. simpl. intros Hk.
  assert (forall n s, n + length (iter_all cs) <= k ->
    iterparse_children body (Some k) cs (n, s)
    = iterparse_children body None cs (n, s)
    /\ fst (fst (iterparse_children body None cs (n, s)))
       = (n + length (iter_all cs))%nat) as Hcs.
  { clear n s Hk. induction IH as [|c cs Hc _ IHcs]; intros n s Hk; simpl.
    - unfold iter_all. simpl. split; [done|lia].
    - unfold iter_all in Hk. simpl in Hk. rewrite length_app in Hk.
      rewrite (Hc n s) by lia.
      pose proof (iterparse_counts c n s) as Hn.
      destruct (iterparse body None c (n, s)) as [[n1 s1] c']. simpl in Hn.
      destruct (IHcs n1 s1) as [-> Hn2]; [unfold iter_all; lia|].
      destruct (iterparse_children body None cs (n1, s1)) as [[n2 s2] cs'].
      simpl in *. split; [done|]. unfold iter_all in *. simpl.
      rewrite length_app. lia. }
  destruct (Hcs n s) as [-> Hn]; [lia|].
  destruct (iterparse_children body None cs (n, s)) as [[n1 s1] cs'].
  simpl in *.
  assert ((n1 <? k) = true) as -> by (apply Nat.ltb_lt; lia).
  done.
Qed.

End IterparseLimit.

(** What the reader has yielded when the parser fails is the beginning of
    what it yields on the intact document. *)
Lemma iterparse_stream_prefix config k e : forall n out,
  exists n2 ys e2 n1 more e1,
    iterparse (stream_body config) (Some k) e (n, out)
    = ((n2, out ++ ys), e2)
    /\ iterparse (stream_body config) None e (n, out)
       = ((n1, out ++ ys ++ more), e1)
    /\ (k < n + length (iter e) -> k <= n2).
Proof.
  induction e as [t a x cs IH] using Element_ind. intros n out.
  destruct (decide (n + length (iter (mkElement t a x cs)) <= k)) as [Hin|Hout].
  { rewrite iterparse_before_failure by done.
    destruct (iterparse_stream_count config (mkElement t a x cs) n out)
      as (n1 & ys & e1 & Heq & _).
    exists n1, ys, e1, n1, [], e1. rewrite app_nil_r. split; [done|].
    split; [done|lia]. }
  assert (exists n2 ys cs2 n1 more cs1,
    iterparse_children (stream_body config) (Some k) cs (n, out)
    = ((n2, out ++ ys), cs2)
    /\ iterparse_children (stream_body config) None cs (n, out)
       = ((n1, out ++ ys ++ more), cs1)
    /\ (k < n + length (iter_all cs) -> k <= n2)
    /\ (n + length (iter_all cs) <= k -> n2 = (n + length (iter_all cs))%nat))
    as (n2 & ys & cs2 & n1 & more & cs1 & Hcut & Hwhole & Hge & Heq).
  { clear Hout t a x. revert n out.
    induction IH as [|c cs Hc _ IHcs]; intros n out; simpl.
    - exists n, [], [], n, [], []. rewrite !app_nil_r.
      unfold iter_all. simpl. repeat split; lia.
    - destruct (decide (n + length (iter c) <= k)) as [Hin|Hout].
      + rewrite (iterparse_before_failure (stream_body config) k c n out Hin).
        pose proof (iterparse_counts (stream_body config) c n out) as Hm1.
        destruct (iterparse_stream_count config c n out)
          as (m1 & ys & c1 & Hc1 & _).
        rewrite Hc1 in Hm1 |- *. simpl in Hm1. subst m1.
        destruct (IHcs (n + length (iter c))%nat (out ++ ys))
          as (p2 & zs & cs2 & p1 & more & cs1 & -> & -> & Hge' & Heq').
        exists p2, (ys ++ zs), (c1 :: cs2), p1, more, (c1 :: cs1).
        rewrite <- !app_assoc. unfold iter_all in *. simpl.
        rewrite length_app. repeat split; try done; lia.
      + destruct (Hc n out) as (m2 & ys & c2 & m1 & more & c1 & -> & -> & Hge).
        specialize (Hge ltac:(lia)).
        rewrite iterparse_children_after_failure by done.
        assert (exists p1 zs cs1,
          iterparse_children (stream_body config) None cs
            (m1, out ++ ys ++ more) = ((p1, (out ++ ys ++ more) ++ zs), cs1))
          as (p1 & zs & cs1 & ->).
        { clear. generalize (out ++ ys ++ more). revert m1.
          induction cs as [|d cs IHd]; intros m l; simpl.
          - exists m, [], []. by rewrite app_nil_r.
          - destruct (iterparse_stream_count config d m l)
              as (m' & ds & d' & -> & _).
            destruct (IHd m' (l ++ ds)) as (p & zs & cs' & ->).
            exists p, (ds ++ zs), (d' :: cs'). by rewrite app_assoc. }
        exists m2, ys, (c2 :: cs), p1, (more ++ zs), (c1 :: cs1).
        rewrite <- !app_assoc. unfold iter_all. simpl. rewrite length_app.
        repeat split; try done; lia. }
  rewrite !iterparse_unfold. simpl. rewrite Hcut, Hwhole.
  rewrite iter_unfold in Hout. simpl in Hout.
  assert ((n2 <? k) = false) as ->.
  { apply Nat.ltb_ge.
    destruct (decide (n + length (iter_all cs) <= k)) as [Hle|Hgt];
      [rewrite (Heq Hle); lia|apply Hge; lia]. }
  unfold stream_body. simpl.
  destruct (decide (t = record_tag config)).
  - eexists n2, ys, _, _, (more ++ [_]), _. rewrite <- !app_assoc.
    split; [done|]. split; [done|]. intros _.
    destruct (decide (n + length (iter_all cs) <= k)) as [Hle|Hgt];
      [rewrite (Heq Hle); lia|apply Hge; lia].
  - eexists n2, ys, _, _, more, _. split; [done|]. split; [done|]. intros _.
    destruct (decide (n + length (iter_all cs) <= k)) as [Hle|Hgt];
      [rewrite (Heq Hle); lia|apply Hge; lia].
Qed.

(** The reader on a document and on the same document cut short. *)
Lemma stream_records_cut config doc k e :
  let cut := stream_records config (mkSource doc (Some (k, e))) in
  let whole := stream_records config (mkSource doc None) in
  yielded cut `prefix_of` yielded whole
  /\ (length (iter doc) <= k -> yielded cut = yielded whole)
  /\ (k = 0%nat -> yielded cut = []).
Proof.
  unfold stream_records. simpl. repeat split.
  - destruct (iterparse_stream_prefix config k doc 0 [])
      as (n2 & ys & e2 & n1 & more & e1 & -> & -> & _).
    simpl. by exists more.
  - intros Hk. rewrite iterparse_before_failure by (simpl; lia).
    by destruct (iterparse _ _ _ _) as [[? ?] ?].
  - intros ->. by rewrite iterparse_after_failure by lia.
Qed.

(** X7. Records before a failure.  When the parser fails after [k] events,
    the elements the reader has yielded by then are the first ones it yields
    on the intact document, unchanged; all of them when the failure comes
    after the last event, none when it comes before the first. *)
Theorem stream_records_failure_prefix config doc k e :
  let cut := stream_records config (mkSource doc (Some (k, e))) in
  let whole := stream_records config (mkSource doc None) in
  yielded cut `prefix_of` yielded whole
  /\ (length (iter doc) <= k -> yielded cut = yielded whole)
  /\ (k = 0%nat -> yielded cut = []).
Proof.
  unfold stream_records. simpl. repeat split.
  - destruct (iterparse_stream_prefix config k doc 0 [])
      as (n2 & ys & e2 & n1 & more & e1 & -> & -> & _).
    simpl. by exists more.
  - intros Hk. rewrite iterparse_before_failure by (simpl; lia).
    by destruct (iterparse _ _ _ _) as [[? ?] ?].
  - intros ->. by rewrite iterparse_after_failure by lia.
Qed.

Lemma iterparse_stream_cleared config e : forall n out,
  exists n' ys e',
    iterparse (stream_body config) None e (n, out) = ((n', out ++ ys), e')
    /\ Forall (fun y => tag y = record_tag config
                        /\ Forall (spent (record_tag config))
                                  (iter_all (children y))) ys
    /\ Forall (spent (record_tag config)) (iter e').
Proof.
  induction e as [t a x cs IH] using Element_ind. intros n out.
  rewrite iterparse_unfold. simpl.
  assert (exists n' ys cs',
    iterparse_children (stream_body config) None cs (n, out)
      = ((n', out ++ ys), cs')
    /\ Forall (fun y => tag y = record_tag config
                        /\ Forall (spent (record_tag config))
                                  (iter_all (children y))) ys
    /\ Forall (spent (record_tag config)) (iter_all cs'))
    as (n' & ys & cs' & -> & Hys & Hcs).
  { clear t a x. revert n out.
    induction IH as [|c cs Hc _ IHcs]; intros n out; simpl.
    - exists n, [], []. rewrite app_nil_r. unfold iter_all. simpl.
      repeat split; constructor.
    - destruct (Hc n out) as (n1 & ys1 & c' & -> & Hy1 & Hc').
      destruct (IHcs n1 (out ++ ys1)) as (n2 & ys2 & cs' & -> & Hy2 & Hcs').
      exists n2, (ys1 ++ ys2), (c' :: cs'). rewrite app_assoc.
      split; [done|]. split; [by apply Forall_app|].
      unfold iter_all in *. simpl. by apply Forall_app. }
  unfold stream_body. simpl. destruct (decide (t = record_tag config)) as [->|Hne].
  - eexists _, (ys ++ [_]), _. rewrite app_assoc. split; [done|]. split.
    + apply Forall_app. split; [done|]. by repeat constructor.
    + rewrite iter_unfold. simpl. unfold iter_all. simpl.
      by repeat constructor.
  - eexists _, ys, _. split; [done|]. split; [done|].
    rewrite iter_unfold. simpl. constructor; [|done].
    intros Ht. simpl in Ht. done.
Qed.

(** X8. What a transform is handed.  On any source, every element the
    reader yields carries the record tag, and every element with the record
    tag below it has been cleared: it has no attribute, no text and no child
    left. *)
Theorem stream_records_yields_records config src :
  Forall (fun y => tag y = record_tag config
                   /\ Forall (spent (record_tag config))
                             (iter_all (children y)))
         (yielded (stream_records config src)).
Proof.
  assert (Forall (fun y => tag y = record_tag config
                   /\ Forall (spent (record_tag config))
                             (iter_all (children y)))
            (yielded (stream_records config (mkSource (document src) None))))
    as Hwhole.
  { unfold stream_records. simpl.
    destruct (iterparse_stream_cleared config (document src) 0 [])
      as (n' & ys & e' & -> & Hys & _).
    done. }
  destruct src as [doc [[k e]|]]; simpl in *; [|done].
  destruct (stream_records_cut config doc k e) as [[more Hp] _].
  simpl in Hp. rewrite Hp in Hwhole. by apply Forall_app in Hwhole as [? _].
Qed.

(** ** Schema validation, all branches *)

(** X9. [validate_xml] returns false in one situation only: validation is
    enabled, a non-empty schema path is configured, lxml is installed and its
    verdict on the document is a mismatch; the error log of that verdict is
    then the one record logged. *)
Theorem validate_xml_false_iff config lxml src :
  (snd (validate_xml config lxml src) = Return false
   <-> validate_schema config = true
       /\ exists path validate error_log,
            schema_path config = Some path /\ path ≠ ""
            /\ lxml = Some validate
            /\ validate path src = Invalid error_log)
  /\ (forall path validate error_log,
        validate_schema config = true ->
        schema_path config = Some path -> path ≠ "" ->
        lxml = Some validate ->
        validate path src = Invalid error_log ->
        validate_xml config lxml src
        = ([Error_validation_failed error_log], Return false)).
Proof.
  unfold validate_xml. split.
  - destruct (validate_schema config) eqn:Hon,
             (schema_path config) as [path|] eqn:Hpath; simpl;
      try (split; [done|];
           intros (? & ? & ? & ? & ? & ? & ? & ?); congruence).
    destruct (decide (path = "")) as [->|Hne]; simpl.
    { split; [done|].
      intros (_ & ? & ? & ? & ? & ? & ? & ?); congruence. }
    destruct lxml as [validate|]; simpl.
    2:{ split; [done|].
        intros (_ & ? & ? & ? & ? & ? & ? & ?); congruence. }
    destruct (validate path src) as [|error_log|[]] eqn:Hv; simpl;
      (split; [try done|intros (_ & ? & ? & ? & ? & ? & ? & ?);
                        simplify_eq; congruence]).
    intros _. split; [done|]. by exists path, validate, error_log.
  - intros path validate error_log -> -> Hne -> ->.
    by destruct (decide (path = "")).
Qed.

(** X10. Failing open.  With validation disabled, with no schema path or an
    empty one, with lxml missing, or when the validator itself raises
    [ImportError], [validate_xml] returns true whatever the document; it logs
    at most the warning that lxml is missing, and [ingest_to_dataframe] goes
    on to the batcher as if nothing had been asked. *)
Theorem validate_xml_fails_open config lxml src transform_func :
  validate_schema config = false
  \/ schema_path config = None
  \/ schema_path config = Some ""
  \/ lxml = None
  \/ (exists validate path msg,
        lxml = Some validate /\ schema_path config = Some path
        /\ validate path src = Fails (ImportError msg)) ->
  snd (validate_xml config lxml src) = Return true
  /\ (fst (validate_xml config lxml src) = []
      \/ fst (validate_xml config lxml src) = [Warning_lxml_missing])
  /\ snd (ingest_to_dataframe config lxml src transform_func)
     = assembled config src transform_func.
Proof.
  intros H.
  assert (snd (validate_xml config lxml src) = Return true
          /\ (fst (validate_xml config lxml src) = []
              \/ fst (validate_xml config lxml src) = [Warning_lxml_missing]))
    as [Hres Hlog].
  { unfold validate_xml.
    destruct (validate_schema config), (schema_path config) as [path|];
      simpl; auto.
    destruct (decide (path = "")); simpl; auto.
    destruct lxml as [validate|]; simpl; auto.
    destruct H as [?|[?|[?|[?|(v & p & msg & ? & ? & Hv)]]]]; simplify_eq.
    rewrite Hv. simpl. auto. }
  split; [done|]. split; [done|].
  rewrite ingest_to_dataframe_result, Hres.
  by destruct (validate_schema config).
Qed.

(** ** The coercion helper, all kinds *)

(** X11. [_convert_type] never raises [ValueError], [AttributeError] or
    [TypeError], whatever the value, the target and the builtins; and it logs
    a warning exactly when the conversion raised one of these, in which case
    it returns the default. *)
Theorem convert_type_catches py_int py_float value target_type default :
  let outcome := _convert_type py_int py_float value target_type default in
  (forall e, snd outcome = Raise e -> caught e = false)
  /\ (fst outcome ≠ [] <->
      exists e, convert py_int py_float value target_type = Raise e
                /\ caught e = true /\ is_blank value = false)
  /\ (fst outcome ≠ [] -> snd outcome = Return default).
Proof.
  unfold _convert_type. simpl.
  destruct (is_blank value); simpl.
  { repeat split; try done. by intros (? & ? & ? & ?). }
  destruct (convert py_int py_float value target_type) as [v|e]; simpl.
  { repeat split; try done. by intros (? & ? & ? & ?). }
  destruct (caught e) eqn:Hc; simpl.
  - repeat split; try done. intros _. by exists e.
  - repeat split; try done.
    + by intros e' [= <-].
    + intros (e' & [= <-] & ? & _). congruence.
Qed.

(** ** The record extractor, field by field *)

Lemma fold_absorb_list xs : forall l,
  fold_left absorb xs (Some (PyList l)) = Some (PyList (l ++ (PyStr <$> xs))).
Proof.
  induction xs as [|x xs IH]; intros l; simpl; [by rewrite app_nil_r|].
  by rewrite IH, <- app_assoc.
Qed.

Lemma fold_absorb_field a xs :
  fold_left absorb xs (PyStr <$> a) = field_of a xs.
Proof.
  destruct a as [v|], xs as [|x [|y xs]]; simpl; try done;
    by rewrite fold_absorb_list.
Qed.

Lemma texts_named_nil config k cs :
  texts_named config k cs = [] <-> Forall (fun c => local_name (tag c) ≠ k) cs.
Proof.
  induction cs as [|c cs IH]; simpl; [by split; [constructor|]|].
  destruct (decide (local_name (tag c) = k)) as [Heq|Hne].
  - split; [done|]. by intros [? _]%Forall_cons.
  - rewrite IH. split; [by constructor|by intros [_ ?]%Forall_cons].
Qed.

(** The closed form of a field. *)
Lemma element_to_dict_closed_form config e k :
  _element_to_dict config e !! k
  = field_of (attrib e !! k) (texts_named config k (children e)).
Proof. by rewrite element_to_dict_lookup, fold_absorb_field. Qed.

(** X12. Every field of the record of the default extractor, in closed
    form.  Under a name [k] it holds: nothing, when [k] is no attribute and
    names no child; the attribute or the single text as a string, when there
    is just one of them; otherwise the list of the attribute, if any,
    followed by the texts of the children stored under [k], in document
    order.  An attribute and a child of the same name thus share one list. *)
Theorem element_to_dict_field config e k :
  _element_to_dict config e !! k
  = field_of (attrib e !! k) (texts_named config k (children e)).
Proof. by rewrite element_to_dict_lookup, fold_absorb_field. Qed.

(** The keys of a record. *)
Lemma element_to_dict_keys config e :
  dom (_element_to_dict config e)
  = dom (attrib e) ∪ list_to_set ((fun c => local_name (tag c)) <$> children e).
Proof.
  apply set_eq. intros k.
  rewrite elem_of_union, !elem_of_dom, element_to_dict_lookup,
    fold_absorb_field, elem_of_list_to_set, list_elem_of_fmap.
  destruct (texts_named config k (children e)) as [|x xs] eqn:Ht.
  - apply texts_named_nil in Ht. rewrite Forall_forall in Ht.
    destruct (attrib e !! k); simpl.
    + split; [intros _; left|]; eauto.
    + split; [by intros []|]. intros [[]|(c & -> & Hc)]; [done|].
      by destruct (Ht c Hc).
  - assert (exists c, k = local_name (tag c) /\ c ∈ children e) as Hex.
    { destruct (decide (Forall (fun c => local_name (tag c) ≠ k) (children e)))
        as [Hall|Hnot].
      - apply (texts_named_nil config) in Hall. congruence.
      - apply not_Forall_Exists in Hnot; [|intros c; apply _].
        apply Exists_exists in Hnot as (c & Hc & Hk).
        exists c. split; [|done]. by destruct (decide (local_name (tag c) = k)). }
    split; [by right|]. intros _.
    destruct (attrib e !! k), xs; simpl; eauto.
Qed.

(** X13. The columns of a record: the names of the attributes, verbatim,
    and the keys computed from the tags of the children; nothing else. *)
Theorem element_to_dict_dom config e :
  dom (_element_to_dict config e)
  = dom (attrib e) ∪ list_to_set ((fun c => local_name (tag c)) <$> children e).
Proof.
  apply set_eq. intros k.
  rewrite elem_of_union, !elem_of_dom, element_to_dict_lookup,
    fold_absorb_field, elem_of_list_to_set, list_elem_of_fmap.
  destruct (texts_named config k (children e)) as [|x xs] eqn:Ht.
  - apply texts_named_nil in Ht. rewrite Forall_forall in Ht.
    destruct (attrib e !! k); simpl.
    + split; [intros _; left|]; eauto.
    + split; [by intros []|]. intros [[]|(c & -> & Hc)]; [done|].
      by destruct (Ht c Hc).
  - assert (exists c, k = local_name (tag c) /\ c ∈ children e) as Hex.
    { destruct (decide (Forall (fun c => local_name (tag c) ≠ k) (children e)))
        as [Hall|Hnot].
      - apply (texts_named_nil config) in Hall. congruence.
      - apply not_Forall_Exists in Hnot; [|intros c; apply _].
        apply Exists_exists in Hnot as (c & Hc & Hk).
        exists c. split; [|done]. by destruct (decide (local_name (tag c) = k)). }
    split; [by right|]. intros _.
    destruct (attrib e !! k), xs; simpl; eauto.
Qed.

Lemma split_pieces_clean sep s :
  Forall (fun piece => PyStr.contains sep piece = false) (PyStr.split sep s).
Proof.
  induction s as [|c s IH]; simpl; [by repeat constructor|].
  destruct (Ascii.eqb c sep) eqn:E; [by repeat constructor|].
  destruct (PyStr.split sep s) as [|h t]; simpl.
  - repeat constructor. simpl. by rewrite E.
  - apply Forall_cons in IH as [Hh Ht]. constructor; [|done].
    simpl. by rewrite E, Hh.
Qed.

Lemma local_name_clean t : PyStr.contains "}" (local_name t) = false.
Proof.
  unfold local_name. destruct (PyStr.contains "}" t) eqn:E; [|done].
  destruct (PyStr.split "}" t !! 1%nat) as [piece|] eqn:Hp.
  - pose proof (split_pieces_clean "}" t) as Hall.
    rewrite Forall_forall in Hall. apply Hall.
    by eapply list_elem_of_lookup_2.
  - destruct (split_second_in_range t E) as [? ?]. congruence.
Qed.

(** X14. No key that comes from a child holds a closing brace, whatever the
    tag: a key of the record with a brace in it is the name of an
    attribute. *)
Theorem element_to_dict_brace_key config e k :
  is_Some (_element_to_dict config e !! k) ->
  PyStr.contains "}" k = true ->
  is_Some (attrib e !! k).
Proof.
  intros Hk%elem_of_dom Hbrace. rewrite element_to_dict_keys in Hk.
  apply elem_of_union in Hk as [Hk|Hk]; [by apply elem_of_dom|].
  apply elem_of_list_to_set, list_elem_of_fmap in Hk as (c & -> & _).
  by rewrite local_name_clean in Hbrace.
Qed.

(** ** Text extraction *)

Lemma lstrip_head s c r : PyStr.lstrip s = String c r -> PyStr.isspace c = false.
Proof.
  induction s as [|a s IH]; simpl; [done|].
  destruct (PyStr.isspace a) eqn:Ha; [done|]. by intros [= <- _].
Qed.

Lemma lstrip_fixed c r :
  PyStr.isspace c = false -> PyStr.lstrip (String c r) = String c r.
Proof. simpl. by intros ->. Qed.

Lemma rstrip_head s c r : PyStr.rstrip s = String c r -> exists r', s = String c r'.
Proof.
  destruct s as [|a s]; simpl; [done|].
  destruct (PyStr.rstrip s); [destruct (PyStr.isspace a)|];
    intros [= <- _]; eauto.
Qed.

Lemma rstrip_last s c :
  last_char (PyStr.rstrip s) = Some c -> PyStr.isspace c = false.
Proof.
  induction s as [|a s IH]; simpl; [done|].
  destruct (PyStr.rstrip s) as [|b r] eqn:E.
  - destruct (PyStr.isspace a) eqn:Ha; simpl; [done|]. by intros [= <-].
  - simpl. apply IH.
Qed.

Lemma rstrip_fixed s c :
  last_char s = Some c -> PyStr.isspace c = false -> PyStr.rstrip s = s.
Proof.
  induction s as [|a s IH]; simpl; [done|].
  destruct s as [|b s].
  - intros [= <-] ->. done.
  - intros Hl Hc. by rewrite (IH Hl Hc).
Qed.

Lemma last_char_cons c r : is_Some (last_char (String c r)).
Proof.
  revert c. induction r as [|b r IH]; intros c; simpl; [by eexists|].
  apply (IH b).
Qed.

Lemma strip_idempotent s : PyStr.strip (PyStr.strip s) = PyStr.strip s.
Proof.
  unfold PyStr.strip.
  destruct (PyStr.rstrip (PyStr.lstrip s)) as [|c r] eqn:E; [done|].
  destruct (rstrip_head _ _ _ E) as [r' Hl].
  rewrite (lstrip_fixed c r) by (by eapply lstrip_head).
  destruct (last_char (String c r)) as [d|] eqn:Hd.
  - apply (rstrip_fixed _ d Hd). rewrite <- E in Hd. by eapply rstrip_last.
  - destruct (last_char_cons c r) as [d Hd']. congruence.
Qed.

(** X15. With [strip_whitespace] set, the text [_safe_get_text] returns
    neither begins nor ends with a whitespace character, and stripping it
    again changes nothing; an element without text, or with the empty text,
    gives the default, stripped as well. *)
Theorem safe_get_text_stripped config element default :
  strip_whitespace config = true ->
  let r := _safe_get_text config element default in
  (forall c rest, r = String c rest -> PyStr.isspace c = false)
  /\ (forall c, last_char r = Some c -> PyStr.isspace c = false)
  /\ PyStr.strip r = r
  /\ (text element = None \/ text element = Some "" ->
      r = PyStr.strip default).
Proof.
  intros Hs r. subst r. unfold _safe_get_text. rewrite Hs. repeat split.
  - intros c rest E. unfold PyStr.strip in E.
    destruct (rstrip_head _ _ _ E) as [r' Hl]. by eapply lstrip_head.
  - intros c. apply rstrip_last.
  - apply strip_idempotent.
  - by intros [->| ->].
Qed.

(** ** Coercion to boolean *)

Lemma isspace_lower_char c :
  PyStr.isspace (PyStr.lower_char c) = PyStr.isspace c.
Proof. by destruct c as [[] [] [] [] [] [] [] []]. Qed.

Lemma all_space_lower s : PyStr.all_space (PyStr.lower s) = PyStr.all_space s.
Proof.
  induction s as [|c s IH]; simpl; [done|].
  by rewrite isspace_lower_char, IH.
Qed.

Lemma any_space_lower s : any_space (PyStr.lower s) = any_space s.
Proof.
  induction s as [|c s IH]; simpl; [done|].
  by rewrite isspace_lower_char, IH.
Qed.

Lemma is_blank_all_space s : is_blank (PyStr s) = PyStr.all_space s.
Proof.
  simpl. destruct (PyStr.all_space s) eqn:E.
  - by apply bool_decide_eq_true_2, strip_empty_iff.
  - apply bool_decide_eq_false_2. rewrite strip_empty_iff. congruence.
Qed.

(** X16. Coercion to boolean of a string that is not blank never raises and
    never falls back to the default: it is true exactly when the string,
    lowered, is one of [true], [1], [yes], [on].  Two strings that differ
    in case only are coerced alike, and a string with a whitespace character
    in it (say [" true"]) is coerced to false, as nothing is stripped. *)
Theorem convert_type_bool py_int py_float s default :
  PyStr.all_space s = false ->
  _convert_type py_int py_float (PyStr s) KBool default
  = ret (PyBool (bool_decide (PyStr.lower s ∈ ["true"; "1"; "yes"; "on"])))
  /\ (forall s', PyStr.lower s' = PyStr.lower s ->
        _convert_type py_int py_float (PyStr s') KBool default
        = _convert_type py_int py_float (PyStr s) KBool default)
  /\ (any_space s = true ->
      _convert_type py_int py_float (PyStr s) KBool default
      = ret (PyBool false)).
Proof.
  intros Hs.
  assert (forall t, PyStr.all_space t = false ->
    _convert_type py_int py_float (PyStr t) KBool default
    = ret (PyBool (bool_decide (PyStr.lower t ∈ ["true"; "1"; "yes"; "on"]))))
    as Hconv.
  { intros t Ht. unfold _convert_type. by rewrite is_blank_all_space, Ht. }
  split; [by apply Hconv|]. split.
  - intros s' Hl. rewrite !Hconv; [by rewrite Hl|done|].
    by rewrite <- all_space_lower, Hl, all_space_lower.
  - intros Hany. rewrite Hconv by done. do 2 f_equal.
    apply bool_decide_eq_false_2. intros Hin.
    rewrite <- any_space_lower in Hany.
    repeat (apply elem_of_cons in Hin as [Hin|Hin];
            [by rewrite Hin in Hany|]).
    by apply elem_of_nil in Hin.
Qed.

(** X17. A field the extractor has built from two or more children of the
    same name is a list, and the coercion helper cannot make a boolean of
    it: it logs the [AttributeError] and returns the default. *)
Theorem convert_type_repeated_field py_int py_float config e k v default :
  _element_to_dict config e !! k = Some v ->
  2 <= length (texts_named config k (children e)) ->
  (exists l, v = PyList l /\ 2 <= length l)
  /\ _convert_type py_int py_float v KBool default
     = ([Warning_conversion_failed
           (AttributeError "object has no attribute 'lower'") default],
        Return default).
Proof.
  rewrite element_to_dict_closed_form. intros Hv Hlen.
  destruct (texts_named config k (children e)) as [|x [|y xs]];
    simpl in Hlen; [lia..|].
  destruct (attrib e !! k); simpl in Hv; simplify_eq;
    (split; [eexists; split; [done|simpl; lia]|done]).
Qed.

(** ** The namespaced ingestor and the one-line loader *)

(** X18. The namespaces of the configuration change nothing to what
    [NamespacedXMLIngestor] extracts: its [_element_to_dict] returns the
    record of the base class for every element. *)
Theorem Namespaced_element_to_dict_same config element :
  Namespaced_element_to_dict config element = _element_to_dict config element.
Proof.
  unfold Namespaced_element_to_dict.
  destruct (namespaces config) as [ns|]; [|done].
  destruct (decide (ns = ∅)); [done|].
  apply (map_fold_weak_ind
           (fun r (_ : gmap string string) => r = _element_to_dict config element));
    done.
Qed.

(** X19. [quick_xml_to_df] never consults the validator.  On a well-formed
    source it returns one row per element carrying the record tag, extracted
    by the default extractor in document order; on a source the parser fails
    on, it raises the ingestion error. *)
Theorem quick_xml_to_df_rows lxml xml_file tag :
  quick_xml_to_df lxml xml_file tag = quick_xml_to_df None xml_file tag
  /\ (well_formed xml_file ->
      let table :=
        map (_element_to_dict (config_for tag))
            (yielded (stream_records (config_for tag) xml_file)) in
      snd (quick_xml_to_df lxml xml_file tag) = Return table
      /\ length table = count_tag tag (document xml_file))
  /\ (forall k e, fault xml_file = Some (k, e) ->
        exists msg,
          snd (quick_xml_to_df lxml xml_file tag)
          = Raise (XMLIngestionError msg)).
Proof.
  split; [done|]. split.
  - intros Hwf table.
    destruct (stream_records_count (config_for tag) xml_file Hwf)
      as [Hlen Hnone].
    split; [|by subst table; rewrite length_map].
    unfold quick_xml_to_df.
    rewrite ingest_to_dataframe_result. simpl. unfold assembled.
    change None with (total None) at 1.
    by rewrite collect_total, Hnone.
  - intros k e Hfault. unfold quick_xml_to_df.
    rewrite ingest_to_dataframe_result. simpl. unfold assembled.
    change None with (total None) at 1. rewrite collect_total.
    unfold stream_records. rewrite Hfault. simpl.
    destruct (iterparse _ _ _ _) as [[? ?] ?]. simpl.
    destruct e; simpl; eauto.
Qed.

(** ** The file inspector *)

Lemma count_tag_list_iter rt cs :
  (forall c, c ∈ cs ->
     count_tag rt c = length (filter (fun d => tag d = rt) (iter c))) ->
  count_tag_list rt cs = length (filter (fun d => tag d = rt) (iter_all cs)).
Proof.
  unfold count_tag_list, iter_all.
  induction cs as [|c cs IH]; intros Hcs; simpl; [done|].
  rewrite filter_app, length_app, <- IH, <- Hcs; [done|by left|].
  intros d Hd. apply Hcs. by right.
Qed.

(** Counting a tag is counting it among all the elements. *)
Lemma count_tag_iter rt e :
  count_tag rt e = length (filter (fun d => tag d = rt) (iter e)).
Proof.
  induction e as [t a x cs IH] using Element_ind.
  rewrite count_tag_unfold, iter_unfold. simpl.
  rewrite (count_tag_list_iter rt cs) by (by apply Forall_forall).
  rewrite filter_cons. simpl. by destruct (decide (t = rt)).
Qed.

Lemma count_tag_positive rt e :
  0 < count_tag rt e <-> rt ∈ tag <$> iter e.
Proof.
  rewrite count_tag_iter, list_elem_of_fmap. split.
  - intros Hlen.
    destruct (filter (fun d => tag d = rt) (iter e)) as [|d l] eqn:E;
      [simpl in Hlen; lia|].
    assert (d ∈ filter (fun d => tag d = rt) (iter e)) as Hd
      by (rewrite E; by left).
    apply list_elem_of_filter in Hd as [Ht Hd]. by exists d.
  - intros (d & -> & Hd).
    assert (d ∈ filter (fun d' => tag d' = tag d) (iter e)) as Hin
      by (by apply list_elem_of_filter).
    destruct (filter _ (iter e)); [by apply elem_of_nil in Hin|simpl; lia].
Qed.

(** X20. The summary of [xml_file_info] for a document that parses and a
    file that can be measured: the root tag and the root attributes as they
    are, the number of all elements, and the distinct tags in ascending
    order without repetition, as many as [unique_tags] says, at least one
    (the root tag is among them) and no more than there are elements. *)
Theorem xml_file_info_summary st_size true_divide xml_file bytes :
  well_formed xml_file ->
  st_size xml_file = Return bytes ->
  exists info,
    xml_file_info st_size true_divide xml_file = inl info
    /\ root_tag info = tag (document xml_file)
    /\ root_attributes info = attrib (document xml_file)
    /\ total_elements info = length (iter (document xml_file))
    /\ (1 <= unique_tags info <= total_elements info)%nat
    /\ length (tags info) = unique_tags info
    /\ NoDup (tags info)
    /\ StronglySorted String.le (tags info)
    /\ root_tag info ∈ tags info
    /\ (forall t, t ∈ tags info <-> t ∈ tag <$> iter (document xml_file)).
Proof.
  intros Hwf Hsize. unfold xml_file_info, parse. rewrite Hwf, Hsize.
  eexists. split; [done|]. simpl.
  set (doc := document xml_file).
  set (tag_set := list_to_set (tag <$> iter doc) : gset string).
  assert (forall t, t ∈ merge_sort String.le (elements tag_set)
                    <-> t ∈ tag <$> iter doc) as Hmem.
  { intros t. rewrite merge_sort_Permutation, elem_of_elements.
    subst tag_set. by rewrite elem_of_list_to_set. }
  assert (tag doc ∈ tag <$> iter doc) as Hroot.
  { rewrite iter_unfold. simpl. by left. }
  repeat split; try done.
  - assert (tag doc ∈ tag_set) as Hin
      by (subst tag_set; by apply elem_of_list_to_set).
    destruct (decide (size tag_set = 0%nat)) as [Hz|]; [|lia].
    apply size_empty_iff in Hz. rewrite Hz in Hin.
    by apply not_elem_of_empty in Hin.
  - rewrite <- (length_fmap tag (iter doc)). unfold size, set_size. simpl.
    apply submseteq_length, NoDup_submseteq; [apply NoDup_elements|].
    intros t Ht. apply elem_of_elements in Ht. subst tag_set.
    by apply elem_of_list_to_set in Ht.
  - by rewrite merge_sort_Permutation.
  - rewrite merge_sort_Permutation. apply NoDup_elements.
  - apply StronglySorted_merge_sort; apply _.
  - by apply Hmem.
  - by apply Hmem.
  - by apply Hmem.
Qed.

(** X21. The tags [xml_file_info] lists are the record tags that give
    rows: the reader yields as many elements as the document has elements
    of the configured record tag, at least one exactly when that tag is in
    the list. *)
Theorem xml_file_info_lists_record_tags st_size true_divide config xml_file
    info :
  well_formed xml_file ->
  xml_file_info st_size true_divide xml_file = inl info ->
  (record_tag config ∈ tags info
   <-> yielded (stream_records config xml_file) ≠ [])
  /\ length (yielded (stream_records config xml_file))
     = length (filter (fun d => tag d = record_tag config)
                      (iter (document xml_file))).
Proof.
  intros Hwf Hinfo.
  destruct (stream_records_count config xml_file Hwf) as [Hlen _].
  split; [|by rewrite Hlen, count_tag_iter].
  assert (record_tag config ∈ tags info
          <-> record_tag config ∈ tag <$> iter (document xml_file)) as ->.
  { unfold xml_file_info, parse in Hinfo. rewrite Hwf in Hinfo.
    destruct (st_size xml_file); [|done]. simplify_eq. simpl.
    by rewrite merge_sort_Permutation, elem_of_elements, elem_of_list_to_set. }
  rewrite <- count_tag_positive, <- Hlen.
  destruct (yielded (stream_records config xml_file)); simpl; split;
    try done; lia.
Qed.

(** ** The parsers of the employee example *)

Lemma remove_spaces_idempotent s :
  remove_spaces (remove_spaces s) = remove_spaces s.
Proof.
  induction s as [|c s IH]; simpl; [done|].
  destruct (Ascii.eqb c " ") eqn:E; simpl; [done|]. by rewrite E, IH.
Qed.

Lemma not_space_char c : PyStr.isspace c = false -> Ascii.eqb c " " = false.
Proof.
  intros Hc. destruct (Ascii.eqb c " ") eqn:E; [|done].
  apply Ascii.eqb_eq in E. by subst c.
Qed.

Lemma remove_spaces_last s d :
  last_char s = Some d -> PyStr.isspace d = false ->
  last_char (remove_spaces s) = Some d.
Proof.
  intros Hl Hd. induction s as [|a s IH]; simpl in *; [done|].
  destruct s as [|b s].
  - simplify_eq. by rewrite (not_space_char d Hd).
  - specialize (IH Hl). destruct (Ascii.eqb a " "); [done|].
    by destruct (remove_spaces (String b s)).
Qed.

(** The text [parse_decimal] hands to [float] is stripped, free of spaces
    and not empty. *)
Lemma cleaned_fixed s :
  blank s = false ->
  let cleaned := remove_spaces (PyStr.strip s) in
  blank cleaned = false
  /\ remove_spaces (PyStr.strip cleaned) = cleaned.
Proof.
  unfold blank. intros [_ Hs%bool_decide_eq_false]%orb_false_iff. simpl.
  destruct (PyStr.strip s) as [|c r] eqn:E; [done|].
  assert (PyStr.isspace c = false) as Hc.
  { unfold PyStr.strip in E. destruct (rstrip_head _ _ _ E) as [r' Hl].
    by eapply lstrip_head. }
  destruct (last_char_cons c r) as [d Hd].
  assert (PyStr.isspace d = false) as Hdn.
  { rewrite <- E in Hd. unfold PyStr.strip in Hd. by eapply rstrip_last. }
  pose proof (remove_spaces_last _ _ Hd Hdn) as Hlast.
  assert (remove_spaces (String c r) = String c (remove_spaces r)) as Hcl.
  { simpl. by rewrite (not_space_char c Hc). }
  rewrite Hcl in *.
  assert (PyStr.strip (String c (remove_spaces r))
          = String c (remove_spaces r)) as Hfix.
  { unfold PyStr.strip. rewrite lstrip_fixed by done.
    by apply (rstrip_fixed _ d). }
  rewrite Hfix. split.
  - by rewrite !bool_decide_eq_false_2.
  - rewrite <- Hcl at 1. by rewrite remove_spaces_idempotent.
Qed.

(** X22. [parse_decimal] returns the default on a blank text, without
    asking [float].  On any other text it returns what [float] makes of the
    text stripped and freed of its spaces, and the default when [float]
    raises [ValueError]; the text cleaned in this way is therefore parsed as
    the original is ([1 000] as [1000]).  As [float] raises nothing but
    [ValueError] on a string, [parse_decimal] never raises. *)
Theorem parse_decimal_cleans py_float s default :
  (forall t e, py_float (PyStr t) = Raise e -> exists msg, e = ValueError msg) ->
  let cleaned := remove_spaces (PyStr.strip s) in
  (blank s = true -> parse_decimal py_float s default = Return default)
  /\ (blank s = false -> forall x,
        py_float (PyStr cleaned) = Return x ->
        parse_decimal py_float s default = Return x)
  /\ (blank s = false -> forall e,
        py_float (PyStr cleaned) = Raise e ->
        parse_decimal py_float s default = Return default)
  /\ (blank s = false ->
      parse_decimal py_float cleaned default
      = parse_decimal py_float s default)
  /\ exists x, parse_decimal py_float s default = Return x.
Proof.
  intros Hfloat cleaned. subst cleaned. unfold parse_decimal.
  split; [by intros ->|]. split; [|split; [|split]].
  - intros -> x Hx. by rewrite Hx.
  - intros -> e He. rewrite He. by destruct (Hfloat _ _ He) as [msg ->].
  - intros Hb. destruct (cleaned_fixed s Hb) as [-> ->]. by rewrite Hb.
  - destruct (blank s); [eauto|].
    destruct (py_float (PyStr (remove_spaces (PyStr.strip s)))) as [x|e] eqn:E;
      [eauto|].
    destruct (Hfloat _ _ E) as [msg ->]. eauto.
Qed.

(** ** The transform of the employee example *)

Section EmployeeTransform.

Variable strptime : string -> string -> result unit.
Variable py_int : pyval -> result Z.
Variable py_float : pyval -> result float64.

Hypothesis strptime_raises :
  forall s f e, strptime s f = Raise e -> exists msg, e = ValueError msg.
Hypothesis py_float_raises :
  forall t e, py_float (PyStr t) = Raise e -> exists msg, e = ValueError msg.

Lemma parse_date_returns s : exists o, parse_date strptime s = Return o.
Proof.
  unfold parse_date. destruct (blank s); [eauto|].
  destruct (strptime s "%Y-%m-%d") as [[]|e] eqn:E; [eauto|].
  destruct (strptime_raises _ _ _ E) as [msg ->]. eauto.
Qed.

Lemma parse_decimal_returns s default :
  exists x, parse_decimal py_float s default = Return x.
Proof.
  unfold parse_decimal. destruct (blank s); [eauto|].
  destruct (py_float (PyStr (remove_spaces (PyStr.strip s)))) as [x|e] eqn:E;
    [eauto|].
  destruct (py_float_raises _ _ E) as [msg ->]. eauto.
Qed.

(** The transform fails exactly as the first of its three [int] calls that
    fails. *)
Lemma transform_employee_basic_int element :
  let level := py_int (PyStr (findtext element "superiorLevel" "0")) in
  let wage := py_int (PyStr (findtext element "wageStep" "0")) in
  let step := py_int (PyStr (findtext element "calculatedStep" "0")) in
  match level, wage, step with
  | Raise e, _, _ | Return _, Raise e, _ | Return _, Return _, Raise e =>
      transform_employee_basic strptime py_int py_float element = Raise e
  | Return _, Return _, Return _ =>
      exists row,
        transform_employee_basic strptime py_int py_float element = Return row
  end.
Proof.
  unfold transform_employee_basic. cbv zeta.
  destruct (parse_date_returns (findtext element "entryDate" "")) as [d1 ->].
  destruct (parse_date_returns (findtext element "leaveDate" "")) as [d2 ->].
  cbn [and_then].
  destruct (py_int (PyStr (findtext element "superiorLevel" "0")));
    cbn [and_then]; [|done].
  destruct (py_int (PyStr (findtext element "wageStep" "0")));
    cbn [and_then]; [|done].
  destruct (py_int (PyStr (findtext element "calculatedStep" "0")));
    cbn [and_then]; [|done].
  destruct (parse_decimal_returns (findtext element "numerator" "0") 0%Z)
    as [x1 ->].
  destruct (parse_decimal_returns (findtext element "denominator" "0") 0%Z)
    as [x2 ->].
  cbn [and_then]. eexists. reflexivity.
Qed.

End EmployeeTransform.

Lemma Return_inj {A} (a b : A) : Return a = Return b -> a = b.
Proof. by intros [= ->]. Qed.

Lemma transform_employee_basic_dom strptime py_int py_float element row :
  transform_employee_basic strptime py_int py_float element = Return row ->
  dom row = employee_columns.
Proof.
  unfold transform_employee_basic. cbv zeta. intros H.
  destruct (parse_date strptime (findtext element "entryDate" ""));
    [|done].
  destruct (parse_date strptime (findtext element "leaveDate" ""));
    [|done].
  destruct (py_int (PyStr (findtext element "superiorLevel" "0"))); [|done].
  destruct (py_int (PyStr (findtext element "wageStep" "0"))); [|done].
  destruct (py_int (PyStr (findtext element "calculatedStep" "0"))); [|done].
  destruct (parse_decimal py_float (findtext element "numerator" "0") 0%Z);
    [|done].
  destruct (parse_decimal py_float (findtext element "denominator" "0") 0%Z);
    [|done].
  cbn [and_then] in H. apply Return_inj in H. subst row.
  rewrite dom_list_to_map_L. unfold employee_columns.
  cbn [fmap list_fmap fst]. reflexivity.
Qed.

Lemma collect_raise config transform_func pre elem post e :
  Forall (fun x => exists r, to_record config transform_func x = Return r) pre ->
  to_record config transform_func elem = Raise e ->
  collect config transform_func (pre ++ elem :: post) = Raise e.
Proof.
  intros Hpre Hraise. induction Hpre as [|x pre [r Hx] _ IH]; simpl.
  - by rewrite Hraise.
  - by rewrite Hx, IH.
Qed.

Lemma collect_rows config f elems rows :
  collect config (Some f) elems = Return rows ->
  Forall (fun row => exists elem, elem ∈ elems /\ f elem = Return row) rows.
Proof.
  revert rows. induction elems as [|elem elems IH]; intros rows; simpl.
  - intros H. apply Return_inj in H. subst rows. constructor.
  - destruct (f elem) as [row|] eqn:Hf; [|done].
    destruct (collect config (Some f) elems) as [rows'|]; [|done].
    intros H. apply Return_inj in H. subst rows. constructor.
    + exists elem. split; [by left|done].
    + eapply Forall_impl; [by apply IH|]. simpl.
      intros r (x & Hx & Hr). exists x. split; [by right|done].
Qed.

(** X23. The columns of the employee table.  Whenever [ingest_to_dataframe]
    returns a table with [transform_employee_basic], every row has the same
    twenty-one keys, whatever the employee elements hold or lack. *)
Theorem employee_table_columns strptime py_int py_float config lxml src table :
  snd (ingest_to_dataframe config lxml src
         (Some (transform_employee_basic strptime py_int py_float)))
  = Return table ->
  Forall (fun row => dom row = employee_columns) table
  /\ size employee_columns = 21%nat.
Proof.
  rewrite ingest_to_dataframe_result. intros H. split; [|by vm_compute].
  assert (assembled config src
            (Some (transform_employee_basic strptime py_int py_float))
          = Return table) as Hasm.
  { destruct (validate_schema config); [|done].
    by destruct (snd (validate_xml config lxml src)) as [[]|]. }
  unfold assembled in Hasm.
  destruct (collect config _ (yielded (stream_records config src)))
    as [rows|] eqn:Hc; [|done].
  destruct (raised (stream_records config src)); [done|].
  apply Return_inj in Hasm. subst rows.
  eapply Forall_impl; [by eapply collect_rows|]. simpl.
  intros row (elem & _ & Hrow). by eapply transform_employee_basic_dom.
Qed.

(** X24. What makes [transform_employee_basic] raise.  As [strptime]
    and [float] raise nothing but [ValueError], which the two parsers catch,
    the transform raises exactly when [int] raises on the text of
    [superiorLevel], [wageStep] or [calculatedStep] (['0'] where the child is
    missing), with the exception of the first of these calls that fails;
    otherwise it returns a row. *)
Theorem transform_employee_basic_raises strptime py_int py_float element :
  (forall s f e, strptime s f = Raise e -> exists msg, e = ValueError msg) ->
  (forall t e, py_float (PyStr t) = Raise e -> exists msg, e = ValueError msg) ->
  let run := transform_employee_basic strptime py_int py_float element in
  let level := py_int (PyStr (findtext element "superiorLevel" "0")) in
  let wage := py_int (PyStr (findtext element "wageStep" "0")) in
  let step := py_int (PyStr (findtext element "calculatedStep" "0")) in
  (forall e, level = Raise e -> run = Raise e)
  /\ (forall z e, level = Return z -> wage = Raise e -> run = Raise e)
  /\ (forall z z' e, level = Return z -> wage = Return z' -> step = Raise e ->
        run = Raise e)
  /\ (forall z z' z'', level = Return z -> wage = Return z' ->
        step = Return z'' -> exists row, run = Return row).
Proof.
  intros Hs Hf run level wage step.
  pose proof (transform_employee_basic_int strptime py_int py_float Hs Hf
                element) as H.
  cbv zeta in H. fold run level wage step in H.
  repeat split.
  - intros e He. by rewrite He in H.
  - intros z e Hl Hw. by rewrite Hl, Hw in H.
  - intros z z' e Hl Hw Hst. by rewrite Hl, Hw, Hst in H.
  - intros z z' z'' Hl Hw Hst. by rewrite Hl, Hw, Hst in H.
Qed.

(** X25. An empty integer element aborts the ingestion.  When [int('')]
    raises, an employee whose [superiorLevel] child is there but empty makes
    [transform_employee_basic] raise, and [ingest_to_dataframe] ends with
    that exception as it leaves the generator (the very exception, for the
    [ValueError] of [int] as for any other than [StopIteration]) instead of a
    table, the employees before it being lost with it. *)
Theorem employee_empty_level_aborts strptime py_int py_float config lxml src
    pre elem post e :
  (forall s f x, strptime s f = Raise x -> exists msg, x = ValueError msg) ->
  py_int (PyStr "") = Raise e ->
  yielded (stream_records config src) = pre ++ elem :: post ->
  Forall (fun x => exists r,
            transform_employee_basic strptime py_int py_float x = Return r)
         pre ->
  findtext elem "superiorLevel" "0" = "" ->
  snd (validate_xml config lxml src) = Return true ->
  transform_employee_basic strptime py_int py_float elem = Raise e
  /\ snd (ingest_to_dataframe config lxml src
            (Some (transform_employee_basic strptime py_int py_float)))
     = Raise (leave_generator e)
  /\ (is_stop_iteration e = false ->
      snd (ingest_to_dataframe config lxml src
             (Some (transform_employee_basic strptime py_int py_float)))
      = Raise e).
Proof.
  intros Hs Hint Hstream Hpre Hempty Hvalid.
  assert (transform_employee_basic strptime py_int py_float elem = Raise e)
    as Hraise.
  { unfold transform_employee_basic. cbv zeta.
    destruct (parse_date_returns strptime Hs (findtext elem "entryDate" ""))
      as [d1 ->].
    destruct (parse_date_returns strptime Hs (findtext elem "leaveDate" ""))
      as [d2 ->].
    cbn [and_then]. by rewrite Hempty, Hint. }
  assert (snd (ingest_to_dataframe config lxml src
                 (Some (transform_employee_basic strptime py_int py_float)))
          = Raise (leave_generator e)) as Hrun.
  { rewrite ingest_to_dataframe_result, Hvalid. unfold assembled.
    rewrite Hstream, (collect_raise _ _ _ _ _ e); [|done|done].
    by destruct (validate_schema config). }
  split; [done|]. split; [done|].
  intros Hstop. rewrite Hrun. unfold leave_generator. by rewrite Hstop.
Qed.

(** X26. [parse_date] never changes a date.  A blank text gives [None],
    without [strptime] being asked; any other text is returned as it is when
    [strptime] accepts it, and gives [None] when [strptime] raises
    [ValueError]; so what is returned is the argument or nothing.  As
    [strptime] raises nothing but [ValueError], [parse_date] never raises. *)
Theorem parse_date_verbatim strptime s :
  (forall t f e, strptime t f = Raise e -> exists msg, e = ValueError msg) ->
  (blank s = true -> parse_date strptime s = Return None)
  /\ (blank s = false -> forall u,
        strptime s "%Y-%m-%d" = Return u ->
        parse_date strptime s = Return (Some s))
  /\ (blank s = false -> forall e,
        strptime s "%Y-%m-%d" = Raise e ->
        parse_date strptime s = Return None)
  /\ (forall d, parse_date strptime s = Return (Some d) -> d = s)
  /\ exists o, parse_date strptime s = Return o.
Proof.
  intros Hs. unfold parse_date.
  split; [by intros ->|]. split; [|split; [|split]].
  - intros -> u Hu. by rewrite Hu.
  - intros -> e He. rewrite He. by destruct (Hs _ _ _ He) as [msg ->].
  - destruct (blank s); [done|].
    destruct (strptime s "%Y-%m-%d") as [u|e] eqn:E.
    + by intros d [= <-].
    + destruct (Hs _ _ _ E) as [msg ->]. done.
  - destruct (blank s); [eauto|].
    destruct (strptime s "%Y-%m-%d") as [u|e] eqn:E; [eauto|].
    destruct (Hs _ _ _ E) as [msg ->]. eauto.
Qed.

(** ** The further theorems at work *)

Lemma sample_strptime_raises s f e :
  sample_strptime s f = Raise e -> exists msg, e = ValueError msg.
Proof.
  unfold sample_strptime. intros H.
  repeat match type of H with
         | match ?m with _ => _ end = _ => destruct m
         | (if ?b then _ else _) = _ => destruct b
         end; simplify_eq; eauto.
Qed.

Example employee_row :
  match transform_employee_basic sample_strptime decimal_int integer_float
          (employee "1" (Some "2")) with
  | Return row =>
      row !! "employee_id" = Some (PyStr "1")
      /\ row !! "leave_date" = Some PyNone
      /\ row !! "is_manager" = Some (PyBool true)
      /\ row !! "superior_level" = Some (PyInt 2)
      /\ row !! "calculated_step" = Some (PyInt 0)
      /\ row !! "numerator" = row !! "denominator"
  | Raise _ => False
  end.
Proof. vm_compute. repeat split. Qed.

Lemma ingest_to_dataframe_rows_witness :
  well_formed five_records
  /\ snd (validate_xml pairs rejecting five_records) = Return true
  /\ length (map (returned pairs (total None))
                 (yielded (stream_records pairs five_records))) = 5%nat.
Proof.
  assert (well_formed five_records) as Hwf by reflexivity.
  assert (snd (validate_xml pairs rejecting five_records) = Return true)
    as Hv by reflexivity.
  split; [exact Hwf|]. split; [exact Hv|].
  destruct (ingest_to_dataframe_rows pairs rejecting five_records None Hwf Hv)
    as (_ & Hlen & _).
  exact Hlen.
Defined.

Lemma ingest_batch_nonpositive_size_witness :
  (batch_size unbatched <= 0)%Z
  /\ Forall (fun batch => length batch = 1%nat)
            (yielded (ingest_batch unbatched five_records None)).
Proof.
  assert (batch_size unbatched <= 0)%Z as HB by (simpl; lia).
  split; [exact HB|].
  exact (ingest_batch_nonpositive_size unbatched five_records None HB).
Defined.

Lemma ingest_batch_drops_less_than_a_batch_witness :
  (1 <= batch_size pairs)%Z
  /\ exists lost,
       map (returned pairs (total None))
           (yielded (stream_records pairs truncated))
       = concat (yielded (ingest_batch pairs truncated (total None))) ++ lost
       /\ (Z.of_nat (length lost) < batch_size pairs)%Z
       /\ (well_formed truncated -> lost = []).
Proof.
  assert (1 <= batch_size pairs)%Z as HB by (simpl; lia).
  split; [exact HB|].
  exact (ingest_batch_drops_less_than_a_batch pairs truncated None HB).
Defined.

Lemma stream_records_failure_prefix_witness :
  (8 = 0%nat -> False)
  /\ yielded (stream_records pairs truncated)
     `prefix_of` yielded (stream_records pairs five_records).
Proof.
  split; [discriminate|].
  exact (proj1 (stream_records_failure_prefix pairs (document five_records) 8
                  (ParseError "no element found: line 9, column 0"))).
Defined.

Lemma validate_xml_false_iff_witness :
  validate_schema strict = true
  /\ snd (validate_xml strict rejecting five_records) = Return false
  /\ exists path validate error_log,
       schema_path strict = Some path /\ path ≠ ""
       /\ rejecting = Some validate
       /\ validate path five_records = Invalid error_log.
Proof.
  assert (snd (validate_xml strict rejecting five_records) = Return false)
    as Hf by reflexivity.
  split; [reflexivity|]. split; [exact Hf|].
  exact (proj2 (proj1 (proj1 (validate_xml_false_iff strict rejecting
                                five_records)) Hf)).
Defined.

Lemma validate_xml_fails_open_witness :
  schema_path strict_without_schema = None
  /\ snd (ingest_to_dataframe strict_without_schema rejecting five_records None)
     = assembled strict_without_schema five_records None.
Proof.
  split; [reflexivity|].
  destruct (validate_xml_fails_open strict_without_schema rejecting
              five_records None (or_intror (or_introl eq_refl)))
    as (_ & _ & H).
  exact H.
Defined.

Lemma convert_type_catches_witness :
  fst (_convert_type decimal_int integer_float (PyStr "12a") KInt (PyInt 0))
  ≠ []
  /\ snd (_convert_type decimal_int integer_float (PyStr "12a") KInt (PyInt 0))
     = Return (PyInt 0).
Proof.
  assert (fst (_convert_type decimal_int integer_float (PyStr "12a") KInt
                 (PyInt 0)) ≠ []) as Hlog by discriminate.
  split; [exact Hlog|].
  destruct (convert_type_catches decimal_int integer_float (PyStr "12a") KInt
              (PyInt 0)) as (_ & _ & H).
  exact (H Hlog).
Defined.

Lemma element_to_dict_brace_key_witness :
  is_Some (_element_to_dict pairs namespaced_record !! "{http://a}id")
  /\ PyStr.contains "}" "{http://a}id" = true
  /\ is_Some (attrib namespaced_record !! "{http://a}id").
Proof.
  assert (is_Some (_element_to_dict pairs namespaced_record !! "{http://a}id"))
    as Hk by (vm_compute; by eexists).
  assert (PyStr.contains "}" "{http://a}id" = true) as Hb by reflexivity.
  split; [exact Hk|]. split; [exact Hb|].
  exact (element_to_dict_brace_key pairs namespaced_record "{http://a}id"
           Hk Hb).
Defined.

Lemma safe_get_text_stripped_witness :
  strip_whitespace pairs = true
  /\ PyStr.strip (_safe_get_text pairs (leaf "name" " item ") "")
     = _safe_get_text pairs (leaf "name" " item ") "".
Proof.
  split; [reflexivity|].
  destruct (safe_get_text_stripped pairs (leaf "name" " item ") "" eq_refl)
    as (_ & _ & H & _).
  exact H.
Defined.

Lemma convert_type_bool_witness :
  PyStr.all_space "Yes" = false
  /\ _convert_type decimal_int integer_float (PyStr "Yes") KBool (PyBool false)
     = ret (PyBool (bool_decide
                      (PyStr.lower "Yes" ∈ ["true"; "1"; "yes"; "on"]))).
Proof.
  split; [reflexivity|].
  exact (proj1 (convert_type_bool decimal_int integer_float "Yes"
                  (PyBool false) eq_refl)).
Defined.

Lemma convert_type_repeated_field_witness :
  _element_to_dict pairs (sample_record "7") !! "tag"
  = Some (PyList [PyStr "a"; PyStr "b"])
  /\ _convert_type decimal_int integer_float (PyList [PyStr "a"; PyStr "b"])
       KBool (PyBool false)
     = ([Warning_conversion_failed
           (AttributeError "object has no attribute 'lower'") (PyBool false)],
        Return (PyBool false)).
Proof.
  assert (_element_to_dict pairs (sample_record "7") !! "tag"
          = Some (PyList [PyStr "a"; PyStr "b"])) as Hv by (by vm_compute).
  assert (2 <= length (texts_named pairs "tag" (children (sample_record "7"))))
    as Hlen by (vm_compute; lia).
  split; [exact Hv|].
  exact (proj2 (convert_type_repeated_field decimal_int integer_float pairs
                  (sample_record "7") "tag" _ (PyBool false) Hv Hlen)).
Defined.

Lemma quick_xml_to_df_rows_witness :
  well_formed five_records
  /\ snd (quick_xml_to_df rejecting five_records "record")
     = Return (map (_element_to_dict (config_for "record"))
                   (yielded (stream_records (config_for "record")
                               five_records))).
Proof.
  assert (well_formed five_records) as Hwf by reflexivity.
  split; [exact Hwf|].
  destruct (quick_xml_to_df_rows rejecting five_records "record")
    as (_ & Hrows & _).
  exact (proj1 (Hrows Hwf)).
Defined.

Lemma xml_file_info_summary_witness :
  well_formed five_records
  /\ three_mebibytes five_records = Return (3 * 1024 * 1024)%Z
  /\ exists info,
       xml_file_info three_mebibytes exact_divide five_records = inl info
       /\ total_elements info = length (iter (document five_records))
       /\ StronglySorted String.le (tags info).
Proof.
  assert (well_formed five_records) as Hwf by reflexivity.
  assert (three_mebibytes five_records = Return (3 * 1024 * 1024)%Z)
    as Hsize by reflexivity.
  split; [exact Hwf|]. split; [exact Hsize|].
  destruct (xml_file_info_summary three_mebibytes exact_divide five_records
              _ Hwf Hsize)
    as (info & Hinfo & _ & _ & Htotal & _ & _ & _ & Hsorted & _).
  exists info. split; [exact Hinfo|]. split; [exact Htotal|exact Hsorted].
Defined.

Lemma xml_file_info_lists_record_tags_witness :
  well_formed five_records
  /\ match xml_file_info three_mebibytes exact_divide five_records with
     | inl info =>
         record_tag pairs ∈ tags info
         <-> yielded (stream_records pairs five_records) ≠ []
     | inr _ => False
     end.
Proof.
  assert (well_formed five_records) as Hwf by reflexivity.
  split; [exact Hwf|].
  destruct (xml_file_info three_mebibytes exact_divide five_records)
    as [info|err] eqn:E.
  - exact (proj1 (xml_file_info_lists_record_tags three_mebibytes exact_divide
                    pairs five_records info Hwf E)).
  - vm_compute in E. discriminate E.
Defined.

Lemma parse_decimal_cleans_witness :
  blank " 1 000 " = false
  /\ integer_float (PyStr (remove_spaces (PyStr.strip " 1 000 ")))
     = Return (binary64_of_Z 1000)
  /\ parse_decimal integer_float " 1 000 " 0%Z = Return (binary64_of_Z 1000)
  /\ parse_decimal integer_float "1000" 0%Z = Return (binary64_of_Z 1000).
Proof.
  assert (blank " 1 000 " = false) as Hb by reflexivity.
  assert (integer_float (PyStr (remove_spaces (PyStr.strip " 1 000 ")))
          = Return (binary64_of_Z 1000)) as Hx by reflexivity.
  split; [exact Hb|]. split; [exact Hx|].
  destruct (parse_decimal_cleans integer_float " 1 000 " 0%Z
              integer_float_raises) as (_ & Hparse & _ & Hclean & _).
  pose proof (Hparse Hb _ Hx) as Hrun.
  split; [exact Hrun|].
  exact (eq_trans (Hclean Hb) Hrun).
Defined.

Lemma collect_returned config transform_func elems :
  Forall (fun x => exists r, to_record config transform_func x = Return r)
         elems ->
  collect config transform_func elems
  = Return (map (returned config transform_func) elems).
Proof.
  induction 1 as [|x elems [r Hx] _ IH]; simpl; [done|].
  unfold returned at 1. by rewrite Hx, IH.
Qed.

Lemma employee_returns id level z :
  decimal_int (PyStr level) = Return z ->
  exists row,
    transform_employee_basic sample_strptime decimal_int integer_float
      (employee id (Some level)) = Return row.
Proof.
  intros Hlevel.
  pose proof (transform_employee_basic_int sample_strptime decimal_int
                integer_float sample_strptime_raises integer_float_raises
                (employee id (Some level))) as H.
  cbv zeta in H.
  change (findtext (employee id (Some level)) "superiorLevel" "0")
    with level in H.
  rewrite Hlevel in H. exact H.
Qed.

Lemma employee_table_columns_witness :
  let transform :=
    Some (transform_employee_basic sample_strptime decimal_int integer_float) in
  let table := map (returned employees_config transform)
                   (yielded (stream_records employees_config good_staff)) in
  snd (ingest_to_dataframe employees_config None good_staff transform)
  = Return table
  /\ Forall (fun row => dom row = employee_columns) table.
Proof.
  intros transform table.
  assert (yielded (stream_records employees_config good_staff)
          = [employee "1" (Some "2"); employee "3" (Some "1")]) as Hstream
    by (vm_compute; reflexivity).
  assert (raised (stream_records employees_config good_staff) = None)
    as Hnone by (vm_compute; reflexivity).
  assert (snd (ingest_to_dataframe employees_config None good_staff transform)
          = Return table) as Hrun.
  { rewrite ingest_to_dataframe_result. unfold assembled.
    change (validate_schema employees_config) with false. cbv iota.
    rewrite Hnone, collect_returned; [done|]. rewrite Hstream.
    repeat constructor.
    - exact (employee_returns "1" "2" 2 eq_refl).
    - exact (employee_returns "3" "1" 1 eq_refl). }
  split; [exact Hrun|].
  exact (proj1 (employee_table_columns sample_strptime decimal_int
                  integer_float employees_config None good_staff table Hrun)).
Defined.

Lemma transform_employee_basic_raises_witness :
  decimal_int (PyStr (findtext (employee "2" None) "superiorLevel" "0"))
  = Raise (ValueError "invalid literal for int() with base 10")
  /\ transform_employee_basic sample_strptime decimal_int integer_float
       (employee "2" None)
     = Raise (ValueError "invalid literal for int() with base 10").
Proof.
  assert (decimal_int
            (PyStr (findtext (employee "2" None) "superiorLevel" "0"))
          = Raise (ValueError "invalid literal for int() with base 10"))
    as Hlevel by reflexivity.
  split; [exact Hlevel|].
  destruct (transform_employee_basic_raises sample_strptime decimal_int
              integer_float (employee "2" None) sample_strptime_raises
              integer_float_raises) as (H & _).
  exact (H _ Hlevel).
Defined.

Lemma employee_empty_level_aborts_witness :
  decimal_int (PyStr "")
  = Raise (ValueError "invalid literal for int() with base 10")
  /\ findtext (employee "2" None) "superiorLevel" "0" = ""
  /\ snd (ingest_to_dataframe employees_config None staff
            (Some (transform_employee_basic sample_strptime decimal_int
                     integer_float)))
     = Raise (ValueError "invalid literal for int() with base 10").
Proof.
  assert (decimal_int (PyStr "")
          = Raise (ValueError "invalid literal for int() with base 10"))
    as Hint by reflexivity.
  assert (findtext (employee "2" None) "superiorLevel" "0" = "")
    as Hempty by reflexivity.
  split; [exact Hint|]. split; [exact Hempty|].
  refine (proj2 (proj2 (employee_empty_level_aborts sample_strptime
                          decimal_int integer_float employees_config None
                          staff [employee "1" (Some "2")] (employee "2" None)
                          [employee "3" (Some "1")] _
                          sample_strptime_raises Hint _ _ Hempty eq_refl))
                eq_refl).
  - by vm_compute.
  - constructor; [exact (employee_returns "1" "2" 2 eq_refl)|constructor].
Defined.

Lemma parse_date_verbatim_witness :
  blank "2020-01-01" = false
  /\ sample_strptime "2020-01-01" "%Y-%m-%d" = Return tt
  /\ parse_date sample_strptime "2020-01-01" = Return (Some "2020-01-01")
  /\ parse_date sample_strptime "  " = Return None.
Proof.
  assert (blank "2020-01-01" = false) as Hb by reflexivity.
  assert (sample_strptime "2020-01-01" "%Y-%m-%d" = Return tt) as Hok
    by reflexivity.
  split; [exact Hb|]. split; [exact Hok|]. split.
  - destruct (parse_date_verbatim sample_strptime "2020-01-01"
                sample_strptime_raises) as (_ & Haccepted & _).
    exact (Haccepted Hb tt Hok).
  - destruct (parse_date_verbatim sample_strptime "  "
                sample_strptime_raises) as (Hblank & _).
    exact (Hblank eq_refl).
Defined.
